(** * PlanParse: page classification engine

    A shallow embedding of the two classifiers of the repository:

    - [DrawingClassifier] embeds [src/main.py] (the fine, 14-category
      OCR variant: keyword counting, drawing-number prefix inference,
      fusion and the cover-page rule);
    - [ZoneClassifier] embeds [src/app/classifier.py] (the coarse,
      zone-weighted variant).

    Conventions of the embedding.

    - A Python [str] is a [string]; its characters are 8-bit and the
      case mappings [lower]/[upper] act on the ASCII letters only, which
      is Python's behaviour on ASCII text; text beyond ASCII is outside
      what the case mappings model.
    - A Python [int] score is a [Z].
    - A Python [float] confidence is a rational [Q]: the code only
      builds confidences from [n / 5.0], [+ 0.2], [min (_, 1.0)] and the
      constants 0.0, 0.5, 0.7, 0.9, on which the comparisons made by the
      code agree with exact arithmetic.
    - A [dict] that is iterated, or whose first maximal key is taken, is
      an association list in insertion order. *)

From Stdlib Require Import ZArith QArith Qminmax List String Ascii Bool Lia Lqa.
Import ListNotations.
Open Scope string_scope.

(** ** Python string operations used by the classifiers *)

Module Str.

Definition is_upper (c : ascii) : bool :=
  let n := nat_of_ascii c in (65 <=? n)%nat && (n <=? 90)%nat.

Definition is_lower (c : ascii) : bool :=
  let n := nat_of_ascii c in (97 <=? n)%nat && (n <=? 122)%nat.

Definition is_digit (c : ascii) : bool :=
  let n := nat_of_ascii c in (48 <=? n)%nat && (n <=? 57)%nat.

(** [str.isspace] on 8-bit characters: tab, LF, VT, FF, CR, the four
    separators 28..31, space, NEL and the no-break space. *)
Definition is_space (c : ascii) : bool :=
  let n := nat_of_ascii c in
  ((9 <=? n)%nat && (n <=? 13)%nat) || ((28 <=? n)%nat && (n <=? 32)%nat)
  || (n =? 133)%nat || (n =? 160)%nat.

Definition lower_char (c : ascii) : ascii :=
  if is_upper c then ascii_of_nat (nat_of_ascii c + 32) else c.

Definition upper_char (c : ascii) : ascii :=
  if is_lower c then ascii_of_nat (nat_of_ascii c - 32) else c.

(** [s.lower()] on ASCII text.  Python's mapping is Unicode-aware: beyond
    ASCII it changes other letters too and is not character-wise (U+212A
    becomes "k", a capital sigma depends on its position).  The embedding
    follows it on ASCII text only; a property that depends on the case
    mapping itself is stated for ASCII text, see [is_ascii]. *)
Fixpoint lower (s : string) : string :=
  match s with
  | EmptyString => EmptyString
  | String c s' => String (lower_char c) (lower s')
  end.

(** [s.upper()] on ASCII text.  Python's mapping is Unicode-aware:
    beyond ASCII it is not length-preserving (U+00DF becomes "SS") and
    [upper (lower s)] may differ from [upper s] (U+212A, U+1E9E).  The
    embedding follows it on ASCII text only; a property that depends on the
    case mapping itself is stated for ASCII text, see [is_ascii]. *)
Fixpoint upper (s : string) : string :=
  match s with
  | EmptyString => EmptyString
  | String c s' => String (upper_char c) (upper s')
  end.

(** [k in t]: [k] occurs as a substring of [t]. *)
Fixpoint contains (k t : string) : bool :=
  prefix k t ||
  match t with
  | EmptyString => false
  | String _ t' => contains k t'
  end.

(** [t.count(k)]: the number of non-overlapping occurrences of [k] in
    [t], scanning from the left.  [skip] is the number of characters
    still covered by the occurrence found last. *)
Fixpoint count_from (k : string) (skip : nat) (t : string) : nat :=
  match t with
  | EmptyString => if prefix k EmptyString then 1 else 0
  | String _ t' =>
      match skip with
      | S n => count_from k n t'
      | O => if prefix k t
             then S (count_from k (length k - 1) t')
             else count_from k 0 t'
      end
  end.

Definition count (k t : string) : nat := count_from k 0 t.

(** [s * n] *)
Fixpoint repeat (s : string) (n : nat) : string :=
  match n with
  | O => EmptyString
  | S n' => s ++ repeat s n'
  end.

Definition all_space (s : string) : bool :=
  forallb is_space (list_ascii_of_string s).

(** The first character of [s] exists and is no white space. *)
Definition starts_nonspace (s : string) : bool :=
  match s with
  | EmptyString => false
  | String c _ => negb (is_space c)
  end.

(** [s.startswith(p)] and [s.endswith(p)] *)
Definition startswith (s p : string) : bool := prefix p s.

Fixpoint endswith (s p : string) : bool :=
  String.eqb p s ||
  match s with
  | EmptyString => false
  | String _ s' => endswith s' p
  end.

(** No upper-case ASCII letter occurs in [s]. *)
Definition no_upper (s : string) : bool :=
  forallb (fun c => negb (is_upper c)) (list_ascii_of_string s).

(** [s.isascii()]: every character of [s] is below 128.  On such text
    [lower] and [upper] are Python's [str.lower] and [str.upper]. *)
Definition is_ascii (s : string) : bool :=
  forallb (fun c => (nat_of_ascii c <? 128)%nat) (list_ascii_of_string s).

End Str.

(** ** [src/main.py]: the fine-grained OCR classifier *)

Module DrawingClassifier.

(** [class DrawingType(str, Enum)] *)
Inductive DrawingType : Type :=
| COVER | PROJECT_INFO | SITE_PLAN | FLOOR_PLAN | ELEVATION | SECTION
| ROOF_PLAN | FOUNDATION | ELECTRICAL | PLUMBING | MECHANICAL
| STRUCTURAL | DETAIL | SCHEDULE | UNKNOWN.

Definition DrawingType_eqb (a b : DrawingType) : bool :=
  match a, b with
  | COVER, COVER | PROJECT_INFO, PROJECT_INFO | SITE_PLAN, SITE_PLAN
  | FLOOR_PLAN, FLOOR_PLAN | ELEVATION, ELEVATION | SECTION, SECTION
  | ROOF_PLAN, ROOF_PLAN | FOUNDATION, FOUNDATION
  | ELECTRICAL, ELECTRICAL | PLUMBING, PLUMBING
  | MECHANICAL, MECHANICAL | STRUCTURAL, STRUCTURAL
  | DETAIL, DETAIL | SCHEDULE, SCHEDULE | UNKNOWN, UNKNOWN => true
  | _, _ => false
  end.

(** [class ClassificationResult(BaseModel)] *)
Record ClassificationResult : Type := mkResult {
  page_number : Z;
  classification : DrawingType;
  confidence : Q;
  keywords_found : list string;
  drawing_number : option string
}.

(** [self.keywords], in insertion order. *)
Definition keywords : list (DrawingType * list string) :=
  [ (COVER,
     ["cover"; "title sheet"; "project title"; "drawing index";
      "sheet index"; "consultants"; "project team"]);
    (PROJECT_INFO,
     ["general notes"; "legend"; "abbreviations"; "symbols";
      "project information"; "code analysis"; "vicinity map"]);
    (SITE_PLAN,
     ["site plan"; "plot plan"; "survey"; "property line"; "setback";
      "parking layout"; "landscape"]);
    (FLOOR_PLAN,
     ["floor plan"; "layout"; "room schedule"; "door schedule";
      "window schedule"; "partition"; "furniture plan"]);
    (ELEVATION,
     ["elevation"; "exterior elevation"; "building elevation";
      "north elevation"; "south elevation"; "east elevation";
      "west elevation"]);
    (SECTION,
     ["section"; "building section"; "wall section"; "detail section";
      "cross section"]);
    (ROOF_PLAN,
     ["roof plan"; "roof framing"; "roof layout"; "roofing plan"]);
    (FOUNDATION,
     ["foundation"; "footing"; "basement"; "slab"; "pier";
      "foundation plan"; "grading plan"]);
    (ELECTRICAL,
     ["electrical"; "power plan"; "lighting"; "panel schedule";
      "circuit"; "receptacle"; "switch"]);
    (PLUMBING,
     ["plumbing"; "sanitary"; "water"; "drainage"; "fixture";
      "domestic water"; "waste"]);
    (MECHANICAL,
     ["mechanical"; "hvac"; "duct"; "ventilation"; "air conditioning";
      "heating"; "exhaust"]);
    (STRUCTURAL,
     ["structural"; "framing"; "beam"; "column"; "truss"; "steel";
      "concrete"; "reinforcing"]);
    (DETAIL,
     ["detail"; "enlarged"; "typical detail"; "construction detail"]);
    (SCHEDULE,
     ["schedule"; "finish schedule"; "door schedule"; "window schedule";
      "room finish"]) ].

(** [self.drawing_prefixes.get(prefix)] *)
Definition drawing_prefixes (prefix : ascii) : option DrawingType :=
  if Ascii.eqb prefix "A" then Some FLOOR_PLAN
  else if Ascii.eqb prefix "S" then Some STRUCTURAL
  else if Ascii.eqb prefix "E" then Some ELECTRICAL
  else if Ascii.eqb prefix "M" then Some MECHANICAL
  else if Ascii.eqb prefix "P" then Some PLUMBING
  else if Ascii.eqb prefix "L" then Some SITE_PLAN
  else if Ascii.eqb prefix "C" then Some SITE_PLAN
  else None.

(** *** Regular expressions of [extract_drawing_number]

    The three patterns are sequences of single-character classes, so a
    pattern is a list of character predicates and a match has the
    length of the pattern.  [[A-Z]] is [Str.is_upper] and [\d] is taken
    on the ASCII digits, [Str.is_digit]. *)

Definition pattern : Type := list (ascii -> bool).

Definition lit (c : ascii) : ascii -> bool := Ascii.eqb c.

Definition patterns : list pattern :=
  [ [Str.is_upper; lit "-"; Str.is_digit; Str.is_digit; Str.is_digit];
    [Str.is_upper; Str.is_digit; Str.is_digit; Str.is_digit];
    [Str.is_upper; lit "-"; Str.is_digit; lit "."; Str.is_digit] ].

(** The pattern matched at the start of [s]. *)
Fixpoint match_here (p : pattern) (s : string) : option string :=
  match p with
  | [] => Some EmptyString
  | cls :: p' =>
      match s with
      | EmptyString => None
      | String a s' =>
          if cls a then option_map (String a) (match_here p' s')
          else None
      end
  end.

(** [re.search(p, s)]: the leftmost match, [match.group(0)]. *)
Fixpoint re_search (p : pattern) (s : string) : option string :=
  match match_here p s with
  | Some m => Some m
  | None =>
      match s with
      | EmptyString => None
      | String _ s' => re_search p s'
      end
  end.

(** The [for pattern in patterns] loop. *)
Fixpoint first_match (ps : list pattern) (s : string) : option string :=
  match ps with
  | [] => None
  | p :: ps' =>
      match re_search p s with
      | Some m => Some m
      | None => first_match ps' s
      end
  end.

Definition extract_drawing_number (text : string) : option string :=
  first_match patterns (Str.upper text).

(** *** [classify_by_keywords] *)

(** The inner loop over one category's keywords: the score and the
    [found] list. *)
Fixpoint scan_keywords (kws : list string) (text : string)
  : Z * list string :=
  match kws with
  | [] => (0%Z, [])
  | keyword :: rest =>
      let '(score, found) := scan_keywords rest text in
      if Str.contains keyword text
      then ((Z.of_nat (Str.count keyword text) + score)%Z, keyword :: found)
      else (score, found)
  end.

(** The dictionaries [scores] and [found_keywords], in insertion order. *)
Definition scores (text : string) : list (DrawingType * Z) :=
  map (fun '(ty, kws) => (ty, fst (scan_keywords kws text))) keywords.

Definition found_keywords (text : string) : list (DrawingType * list string) :=
  map (fun '(ty, kws) => (ty, snd (scan_keywords kws text))) keywords.

(** [d[ty]] for a key that is present; the default stands for the
    [KeyError] that the code never reaches. *)
Fixpoint lookup {A : Type} (d : list (DrawingType * A)) (ty : DrawingType)
  (default : A) : A :=
  match d with
  | [] => default
  | (k, v) :: d' => if DrawingType_eqb k ty then v else lookup d' ty default
  end.

(** [max(scores, key=scores.get)] on a non-empty dictionary: the first
    key, in iteration order, whose value is maximal. *)
Fixpoint max_from (best : DrawingType) (best_score : Z)
  (d : list (DrawingType * Z)) : DrawingType :=
  match d with
  | [] => best
  | (k, v) :: d' =>
      if (best_score <? v)%Z then max_from k v d'
      else max_from best best_score d'
  end.

Definition max_key (d : list (DrawingType * Z)) : option DrawingType :=
  match d with
  | [] => None
  | (k, v) :: d' => Some (max_from k v d')
  end.

(** [any(scores.values())] *)
Definition any_nonzero (d : list (DrawingType * Z)) : bool :=
  existsb (fun kv => negb (snd kv =? 0)%Z) d.

Definition classify_by_keywords (text : string)
  : DrawingType * Q * list string :=
  let scores := scores text in
  let found_keywords := found_keywords text in
  if negb (any_nonzero scores) then (UNKNOWN, 0.0%Q, [])
  else
    match max_key scores with
    | None => (UNKNOWN, 0.0%Q, [])
    | Some best_type =>
        let max_score := lookup scores best_type 0%Z in
        let confidence := Qmin (inject_Z max_score / 5.0) 1.0 in
        (best_type, confidence, lookup found_keywords best_type [])
    end.

(** *** [classify_by_drawing_number] *)

Definition classify_by_drawing_number (drawing_num : string)
  : option DrawingType :=
  match drawing_num with
  | EmptyString => None
  | String c _ => drawing_prefixes (Str.upper_char c)
  end.

(** [x < y] on confidences. *)
Definition Qltb (x y : Q) : bool := negb (Qle_bool y x).

(** *** [extract_text_from_image] and [classify_page]

    The OCR engine and the crop of the title block are external: the
    classifier is parameterised by them. *)
Section Page.

Variable Image : Type.
(** [pytesseract.image_to_string] *)
Variable image_to_string : Image -> string.
(** [image.crop((0, int(height * 0.8), width, height))] *)
Variable crop_title_block : Image -> Image.

Definition extract_text_from_image (image : Image) : string :=
  let title_block := crop_title_block image in
  let full_text := Str.lower (image_to_string image) in
  let title_text := Str.lower (image_to_string title_block) in
  full_text ++ String "010" EmptyString ++ Str.repeat title_text 2.

Definition classify_page (image : Image) (page_num : Z)
  : ClassificationResult :=
  let text := extract_text_from_image image in
  let drawing_num := extract_drawing_number text in
  let '(keyword_type, keyword_confidence, keywords) :=
    classify_by_keywords text in
  let prefix_type :=
    match drawing_num with
    | Some d => if (0 <? String.length d)%nat
                then classify_by_drawing_number d else None
    | None => None
    end in
  let '(final_type, final_confidence) :=
    match prefix_type with
    | Some p =>
        if Qltb keyword_confidence 0.5 then (p, 0.7%Q)
        else if DrawingType_eqb p keyword_type
             then (keyword_type, Qmin (keyword_confidence + 0.2) 1.0)
             else (keyword_type, keyword_confidence)
    | None => (keyword_type, keyword_confidence)
    end in
  let '(final_type, final_confidence) :=
    if (page_num =? 1)%Z && Str.contains "cover" text
    then (COVER, 0.9%Q)
    else (final_type, final_confidence) in
  mkResult page_num final_type final_confidence
           (firstn 5 keywords) drawing_num.

End Page.

(** *** Observations on which the properties are stated *)

(** [scores[ty]] and [found_keywords[ty]] as [classify_by_keywords]
    builds them; [UNKNOWN] is no key of either. *)
Definition score_of (text : string) (ty : DrawingType) : Z :=
  lookup (scores text) ty 0%Z.

Definition matched (text : string) (ty : DrawingType) : list string :=
  lookup (found_keywords text) ty [].

Definition keywords_of (ty : DrawingType) : list string :=
  lookup keywords ty [].

(** The keys of [self.keywords] in declaration order. *)
Definition declared : list DrawingType := map fst keywords.

(** The sum of [text.count(keyword)] over the keywords of [kws] that
    occur in [text]. *)
Definition sum_counts (kws : list string) (text : string) : Z :=
  fold_right
    (fun kw acc =>
       ((if Str.contains kw text then Z.of_nat (Str.count kw text) else 0)
        + acc)%Z)
    0%Z kws.

(** No keyword of the table occurs in [text]. *)
Definition keyword_free (text : string) : bool :=
  forallb (fun '(_, kws) =>
             forallb (fun kw => negb (Str.contains kw text)) kws)
          keywords.

(** The condition of the cover-page rule. *)
Definition cover_override (page_num : Z) (text : string) : bool :=
  (page_num =? 1)%Z && Str.contains "cover" text.

(** The score dictionary built from any keyword table; [scores] is its
    instance at [keywords]. *)
Definition scores_in (tbl : list (DrawingType * list string)) (text : string)
  : list (DrawingType * Z) :=
  map (fun '(ty, kws) => (ty, fst (scan_keywords kws text))) tbl.

(** The position of [ty] in a list of categories (its length when [ty]
    is absent); [rank] is the position in declaration order. *)
Fixpoint index_of (ty : DrawingType) (l : list DrawingType) : nat :=
  match l with
  | [] => O
  | x :: l' => if DrawingType_eqb x ty then O else S (index_of ty l')
  end.

Definition rank (ty : DrawingType) : nat := index_of ty declared.

(** The value of [prefix_type] in [classify_page]. *)
Definition prefix_type_of (text : string) : option DrawingType :=
  match extract_drawing_number text with
  | Some d => if (0 <? String.length d)%nat
              then classify_by_drawing_number d else None
  | None => None
  end.

(** The letters of the prefix table. *)
Definition prefix_letters : list ascii :=
  ["A"; "S"; "E"; "M"; "P"; "L"; "C"]%char.

(** A scanned sheet reduced to what the OCR engine reads on it: the
    text of the whole page and the text of its title block. *)
Definition Scan : Type := (string * string)%type.
Definition scan_ocr (image : Scan) : string := fst image.
Definition scan_crop (image : Scan) : Scan := (snd image, snd image).

Definition classify_scan (image : Scan) (page_num : Z)
  : ClassificationResult :=
  classify_page Scan scan_ocr scan_crop image page_num.

Definition scan_text (image : Scan) : string :=
  extract_text_from_image Scan scan_ocr scan_crop image.

End DrawingClassifier.

(** ** [src/app/classifier.py]: the coarse zone-weighted classifier *)

Module ZoneClassifier.

(** [KEYWORDS], in insertion order.  Categories are plain strings. *)
Definition KEYWORDS : list (string * list string) :=
  [ ("FLOOR_PLAN",
     ["floor plan"; "level"; "ground floor"; "first floor";
      "second floor"]);
    ("ELEVATION",
     ["elevation"; "north elevation"; "south elevation";
      "east elevation"; "west elevation"]);
    ("FOUNDATION",
     ["foundation plan"; "foundation"; "footing"; "slab on grade"]);
    ("GENERAL_NOTES",
     ["general notes"; "general note"; "general construction notes";
      "general information"; "notes and details"; "abbreviations";
      "symbols"; "legend"; "code requirements"]);
    ("LEDGER",
     ["sheet index"; "index of drawings"; "drawing list"; "schedule"]) ].

(** *** [scores = defaultdict(int)]

    An association list in insertion order: [max] below depends on
    that order. *)
Definition score_map : Type := list (string * Z).

(** [scores.get(k)], with 0 for a key that was never touched. *)
Fixpoint get (scores : score_map) (k : string) : Z :=
  match scores with
  | [] => 0%Z
  | (k', v) :: rest => if String.eqb k' k then v else get rest k
  end.

(** [scores[k] += n]: an existing key keeps its place, a new key is
    inserted last with the default 0 plus [n]. *)
Fixpoint add (scores : score_map) (k : string) (n : Z) : score_map :=
  match scores with
  | [] => [(k, (0 + n)%Z)]
  | (k', v) :: rest =>
      if String.eqb k' k then (k', (v + n)%Z) :: rest
      else (k', v) :: add rest k n
  end.

(** [max(scores, key=scores.get)] on a non-empty dictionary. *)
Fixpoint max_from (best : string) (best_score : Z) (d : score_map)
  : string :=
  match d with
  | [] => best
  | (k, v) :: d' =>
      if (best_score <? v)%Z then max_from k v d'
      else max_from best best_score d'
  end.

(** [for tag in tags: if tag in text: scores[category] += weight] *)
Definition tag_loop (weight : Z) (text category : string)
  (tags : list string) (scores : score_map) : score_map :=
  fold_left
    (fun sc tag => if Str.contains tag text then add sc category weight
                   else sc)
    tags scores.

(** [for category, tags in KEYWORDS.items(): ...] *)
Definition table_loop (weight : Z) (text : string) (scores : score_map)
  : score_map :=
  fold_left
    (fun sc '(category, tags) => tag_loop weight text category tags sc)
    KEYWORDS scores.

(** The first loop of [classify_page], over [zone_text.values()]. *)
Definition zone_pass (zones : list string) (scores : score_map)
  : score_map :=
  fold_left (fun sc zone => table_loop 3 zone sc) zones scores.

(** The text-density rule. *)
Definition density_bonus (full_text : string) (scores : score_map)
  : score_map :=
  if (2000 <? Z.of_nat (String.length full_text))%Z
  then add scores "GENERAL_NOTES" 3
  else scores.

(** [scores] just before the final choice. *)
Definition score_page (zones : list string) (full_text : string)
  : score_map :=
  density_bonus full_text
    (table_loop 1 full_text (zone_pass zones [])).

(** The end of [classify_page]. *)
Definition pick (scores : score_map) : string :=
  match scores with
  | [] => "UNKNOWN"
  | (k, v) :: rest => max_from k v rest
  end.

(** *** The page, as [pdfplumber] presents it *)
Section Page.

Variable Page : Type.
Variable width height : Page -> Q.
(** [page.within_bbox(bbox).extract_text()] *)
Variable within_bbox_extract_text : Page -> Q * Q * Q * Q -> option string.
(** [w["text"] for w in page.extract_words(use_text_flow=True) or []] *)
Variable extract_words : Page -> list string.

Definition extract_words_text (page : Page) : string :=
  Str.lower (String.concat " " (extract_words page)).

Definition extract_zones (page : Page) : list (string * string) :=
  let w := width page in
  let h := height page in
  let zones :=
    [ ("bottom", (0, h * 0.75, w, h));
      ("bottom_right", (w * 0.6, h * 0.7, w, h));
      ("right", (w * 0.75, 0, w, h));
      ("left", (0, 0, w * 0.25, h)) ]%Q in
  map (fun '(name, bbox) =>
         let text := match within_bbox_extract_text page bbox with
                     | Some t => t
                     | None => EmptyString
                     end in
         (name, Str.lower text))
      zones.

Definition scores_of_page (page : Page) : score_map :=
  score_page (map snd (extract_zones page)) (extract_words_text page).

Definition classify_page (page : Page) : string :=
  let zone_text := extract_zones page in
  let full_text := extract_words_text page in
  let scores := zone_pass (map snd zone_text) [] in
  let scores := table_loop 1 full_text scores in
  let scores := density_bonus full_text scores in
  pick scores.

End Page.

(** No keyword of the table occurs in [text]. *)
Definition keyword_free (text : string) : bool :=
  forallb (fun '(_, tags) =>
             forallb (fun tag => negb (Str.contains tag text)) tags)
          KEYWORDS.


(** The number of tags of [tags] that occur in [text]. *)
Definition hits (text : string) (tags : list string) : Z :=
  Z.of_nat (List.length (filter (fun tag => Str.contains tag text) tags)).

(** The number of matching tags filed under [category] in a table. *)
Definition table_hits (tbl : list (string * list string)) (text : string)
  (category : string) : Z :=
  fold_right
    (fun '(c, tags) acc =>
       ((if String.eqb c category then hits text tags else 0) + acc)%Z)
    0%Z tbl.

(** The same, summed over the zone texts. *)
Definition zone_hits (tbl : list (string * list string)) (zones : list string)
  (category : string) : Z :=
  fold_right (fun zone acc => (table_hits tbl zone category + acc)%Z) 0%Z zones.



(** The density bonus received by [category]. *)
Definition bonus (full_text category : string) : Z :=
  if (2000 <? Z.of_nat (String.length full_text))%Z
  then (if String.eqb "GENERAL_NOTES" category then 3%Z else 0%Z)
  else 0%Z.

(** A sheet reduced to what [pdfplumber] extracts from it: its size, the
    text found within given boxes and its words in reading order. *)
Record Sheet : Type := mkSheet {
  sheet_width : Q;
  sheet_height : Q;
  sheet_boxes : list (Q * Q * Q * Q * string);
  sheet_words : list string
}.

Definition bbox_eqb (a b : Q * Q * Q * Q) : bool :=
  let '(a0, a1, a2, a3) := a in
  let '(b0, b1, b2, b3) := b in
  Qeq_bool a0 b0 && Qeq_bool a1 b1 && Qeq_bool a2 b2 && Qeq_bool a3 b3.

Fixpoint box_text (boxes : list (Q * Q * Q * Q * string)) (bbox : Q * Q * Q * Q)
  : option string :=
  match boxes with
  | [] => None
  | (b, t) :: rest => if bbox_eqb b bbox then Some t else box_text rest bbox
  end.

Definition sheet_extract_text (sheet : Sheet) (bbox : Q * Q * Q * Q)
  : option string :=
  box_text (sheet_boxes sheet) bbox.


Definition sheet_full_text (sheet : Sheet) : string :=
  extract_words_text Sheet sheet_words sheet.

Definition sheet_scores (sheet : Sheet) : score_map :=
  scores_of_page Sheet sheet_width sheet_height sheet_extract_text sheet_words
                 sheet.

Definition classify_sheet (sheet : Sheet) : string :=
  classify_page Sheet sheet_width sheet_height sheet_extract_text sheet_words
                sheet.

End ZoneClassifier.

(** ** The HTTP endpoints

    What a handler sends back: the body of a 200 response, or the status
    code of the [HTTPException] it raises.  The detail message of an
    exception embeds the text of a library error and is left out. *)

Inductive response (A : Type) : Type :=
| Ok (body : A)
| HTTPError (status_code : Z).

Arguments Ok {A} body.
Arguments HTTPError {A} status_code.

(** *** [src/main.py]: [classify_image] and [classify_pdf] *)

Module DrawingClassifierApi.
Import DrawingClassifier.

(** [self.drawing_prefixes] as the dictionary it is; [drawing_prefixes]
    is its [get]. *)
Definition prefix_table : list (ascii * DrawingType) :=
  [ ("A"%char, FLOOR_PLAN); ("S"%char, STRUCTURAL); ("E"%char, ELECTRICAL);
    ("M"%char, MECHANICAL); ("P"%char, PLUMBING); ("L"%char, SITE_PLAN);
    ("C"%char, SITE_PLAN) ].

(** The suffix of [s] that starts at position [n]. *)
Fixpoint drop (n : nat) (s : string) : string :=
  match n, s with
  | O, _ => s
  | S n', EmptyString => EmptyString
  | S n', String _ s' => drop n' s'
  end.

(** An upload that declares a content type: [file.content_type] and the
    bytes of [await file.read()]. *)
Record UploadFile (Bytes : Type) : Type := mkUpload {
  content_type : string;
  contents : Bytes
}.

Arguments mkUpload {Bytes} content_type contents.
Arguments content_type {Bytes} u.
Arguments contents {Bytes} u.

Section Endpoints.

Variable Image : Type.
Variable Bytes : Type.
(** [pytesseract.image_to_string], which may raise *)
Variable image_to_string : Image -> option string.
Variable crop_title_block : Image -> Image.
(** [Image.open(io.BytesIO(contents))], which may raise *)
Variable image_open : Bytes -> option Image.
(** [pdf2image.convert_from_bytes(contents, dpi=150)], which may raise *)
Variable convert_from_bytes : Bytes -> option (list Image).

(** The text the OCR engine returns where it succeeds. *)
Definition ocr_text (image : Image) : string :=
  match image_to_string image with
  | Some s => s
  | None => EmptyString
  end.

(** [extract_text_from_image] with its [try]: [None] stands for the
    [HTTPException(status_code=500)] raised when the OCR of the page or of
    its title block fails. *)
Definition extract_text_checked (image : Image) : option string :=
  let title_block := crop_title_block image in
  match image_to_string image with
  | None => None
  | Some full =>
      match image_to_string title_block with
      | None => None
      | Some title =>
          Some (Str.lower full ++ String "010" EmptyString
                ++ Str.repeat (Str.lower title) 2)
      end
  end.

(** [classify_page] where the OCR engine may fail. *)
Definition classify_page_checked (image : Image) (page_num : Z)
  : response ClassificationResult :=
  match extract_text_checked image with
  | None => HTTPError 500
  | Some _ =>
      Ok (classify_page Image ocr_text crop_title_block image page_num)
  end.

(** [POST /classify/image] *)
Definition classify_image (file : UploadFile Bytes)
  : response ClassificationResult :=
  if negb (Str.startswith (content_type file) "image/")
  then HTTPError 400
  else
    match image_open (contents file) with
    | None => HTTPError 500
    | Some image =>
        match classify_page_checked image 1 with
        | Ok result => Ok result
        | HTTPError _ => HTTPError 500
        end
    end.

(** The loop [for i, image in enumerate(images, start=1)], from index
    [i] on: the first failure aborts the request. *)
Fixpoint classify_pages (images : list Image) (i : Z)
  : response (list ClassificationResult) :=
  match images with
  | [] => Ok []
  | image :: rest =>
      match classify_page_checked image i with
      | HTTPError _ => HTTPError 500
      | Ok result =>
          match classify_pages rest (i + 1) with
          | Ok results => Ok (result :: results)
          | HTTPError status => HTTPError status
          end
      end
  end.

(** [POST /classify/pdf] *)
Definition classify_pdf (file : UploadFile Bytes)
  : response (list ClassificationResult) :=
  if negb (String.eqb (content_type file) "application/pdf")
  then HTTPError 400
  else
    match convert_from_bytes (contents file) with
    | None => HTTPError 500
    | Some images => classify_pages images 1
    end.

End Endpoints.

End DrawingClassifierApi.

(** *** [src/app/main.py]: [classify_pdf] *)

Module ZoneClassifierApi.
Import ZoneClassifier.

(** [class PageClassification(BaseModel)] *)
Record PageClassification : Type := mkPageClassification {
  page_number : Z;
  classification : string
}.

(** [class ClassificationResponse(BaseModel)] *)
Record ClassificationResponse : Type := mkClassificationResponse {
  filename : string;
  total_pages : Z;
  results : list PageClassification
}.

(** The labels [classify_page] can return. *)
Definition labels : list string := map fst KEYWORDS ++ ["UNKNOWN"].

(** What the three passes keep true of [scores]: its keys are categories
    of [KEYWORDS], no key occurs twice, and every stored score is at
    least 1. *)
Definition well_formed (scores : score_map) : Prop :=
  (forall c, In c (map fst scores) -> In c (map fst KEYWORDS)) /\
  NoDup (map fst scores) /\
  Forall (fun kv => (1 <= snd kv)%Z) scores.

Section Endpoint.

Variable Page : Type.
Variable Bytes : Type.
Variable width height : Page -> Q.
Variable within_bbox_extract_text : Page -> Q * Q * Q * Q -> option string.
Variable extract_words : Page -> list string.
(** [pdfplumber.open(io.BytesIO(pdf_bytes)).pages], which may raise *)
Variable pdfplumber_open : Bytes -> option (list Page).

(** The loop [for i, page in enumerate(pdf.pages)], from index [i] on. *)
Fixpoint classify_from (i : Z) (pages : list Page)
  : list PageClassification :=
  match pages with
  | [] => []
  | page :: rest =>
      let label :=
        classify_page Page width height within_bbox_extract_text
                      extract_words page in
      mkPageClassification (i + 1) label :: classify_from (i + 1) rest
  end.

(** [POST /classify], for an upload that has a file name. *)
Definition classify_pdf (file_name : string) (pdf_bytes : Bytes)
  : response ClassificationResponse :=
  if negb (Str.endswith file_name ".pdf")
  then HTTPError 400
  else
    match pdfplumber_open pdf_bytes with
    | None => HTTPError 500
    | Some pages =>
        let results := classify_from 0 pages in
        let total_pages := Z.of_nat (List.length pages) in
        Ok (mkClassificationResponse file_name total_pages results)
    end.

End Endpoint.

End ZoneClassifierApi.

(** * Properties of the string operations *)

Module StrFacts.
Import Str.

Lemma prefix_cons_inv (c : ascii) (k t : string) :
  prefix (String c k) t = true -> exists t', t = String c t' /\ prefix k t' = true.
Proof.
  destruct t as [|a t']; simpl; [discriminate|].
  destruct (ascii_dec c a) as [->|]; [|discriminate].
  intros H; exists t'; split; [reflexivity | exact H].
Qed.

Lemma prefix_empty_r (k : string) :
  prefix k EmptyString = true -> k = EmptyString.
Proof. destruct k; simpl; [reflexivity | discriminate]. Qed.

(** The first character of a substring occurs in the text. *)
Lemma contains_head_in (c : ascii) (k t : string) :
  contains (String c k) t = true -> In c (list_ascii_of_string t).
Proof.
  induction t as [|a t IH]; simpl.
  - discriminate.
  - destruct (ascii_dec c a) as [->|]; [left; reflexivity|].
    simpl. intros H; right; apply IH; exact H.
Qed.

Lemma contains_false_count (k t : string) :
  k <> EmptyString -> contains k t = false -> count k t = 0%nat.
Proof.
  intros Hk. unfold count.
  assert (G : forall skip, contains k t = false -> count_from k skip t = 0%nat).
  { induction t as [|a t IH]; intros skip H.
    - destruct k; [contradiction | reflexivity].
    - cbn [contains] in H. apply orb_false_iff in H as [H1 H2].
      cbn [count_from]. destruct skip as [|n].
      + rewrite H1. apply IH; exact H2.
      + apply IH; exact H2. }
  apply G.
Qed.

Lemma contains_true_count (k t : string) :
  contains k t = true -> (1 <= count k t)%nat.
Proof.
  unfold count. induction t as [|a t IH]; cbn [contains count_from].
  - rewrite orb_false_r. intros ->. lia.
  - destruct (prefix k (String a t)); [lia|]. simpl. exact IH.
Qed.

Lemma space_not_upper (c : ascii) : is_space c = true -> is_upper c = false.
Proof.
  destruct c as [[] [] [] [] [] [] [] []]; vm_compute; congruence.
Qed.

Lemma space_not_lower (c : ascii) : is_space c = true -> is_lower c = false.
Proof.
  destruct c as [[] [] [] [] [] [] [] []]; vm_compute; congruence.
Qed.

Lemma all_space_cons (c : ascii) (s : string) :
  all_space (String c s) = is_space c && all_space s.
Proof. reflexivity. Qed.

Lemma all_space_in (s : string) (c : ascii) :
  all_space s = true -> In c (list_ascii_of_string s) -> is_space c = true.
Proof.
  unfold all_space. rewrite forallb_forall. intros H Hin. apply H; exact Hin.
Qed.

Lemma all_space_upper (s : string) :
  all_space s = true -> upper s = s.
Proof.
  induction s as [|c s IH]; [reflexivity|].
  rewrite all_space_cons. intros H. apply andb_true_iff in H as [Hc Hs].
  simpl. rewrite (IH Hs). unfold upper_char.
  rewrite (space_not_lower c Hc). reflexivity.
Qed.

Lemma all_space_no_substring (c : ascii) (k t : string) :
  all_space t = true -> is_space c = false -> contains (String c k) t = false.
Proof.
  intros Ht Hc. destruct (contains (String c k) t) eqn:E; [|reflexivity].
  apply contains_head_in in E. apply (all_space_in t c Ht) in E. congruence.
Qed.

(** [str.count] counts occurrences that do not overlap, and counts the
    gaps between characters for the empty pattern, as Python does. *)
Example count_nonoverlapping : count "aa" "aaaaa" = 2%nat.
Proof. reflexivity. Qed.

Example count_empty_pattern : count "" "abc" = 4%nat.
Proof. reflexivity. Qed.

Example contains_inner : contains "plan" "floor plan a-101" = true.
Proof. reflexivity. Qed.

Example lower_upper_ascii :
  lower "Floor PLAN A-101" = "floor plan a-101" /\
  upper "floor plan a-101" = "FLOOR PLAN A-101".
Proof. split; reflexivity. Qed.

End StrFacts.

(** * Properties of the fine-grained classifier ([src/main.py]) *)

Module DrawingClassifierFacts.
Import DrawingClassifier.
Local Open Scope list_scope.

Lemma Qltb_lt (x y : Q) : Qltb x y = true <-> (x < y)%Q.
Proof.
  unfold Qltb. rewrite negb_true_iff. split.
  - intros H. apply Qnot_le_lt. intros L. apply Qle_bool_iff in L. congruence.
  - intros H. destruct (Qle_bool y x) eqn:E; [|reflexivity].
    apply Qle_bool_iff in E. exfalso. exact (Qlt_not_le _ _ H E).
Qed.

Lemma Qltb_ge (x y : Q) : Qltb x y = false <-> (y <= x)%Q.
Proof.
  unfold Qltb. rewrite negb_false_iff. apply Qle_bool_iff.
Qed.

Lemma DrawingType_eqb_eq (a b : DrawingType) :
  DrawingType_eqb a b = true <-> a = b.
Proof. destruct a, b; simpl; split; congruence. Qed.

Lemma DrawingType_eqb_refl (a : DrawingType) : DrawingType_eqb a a = true.
Proof. destruct a; reflexivity. Qed.

Lemma DrawingType_eqb_neq (a b : DrawingType) :
  DrawingType_eqb a b = false <-> a <> b.
Proof. destruct a, b; simpl; split; congruence. Qed.

(** ** Scores *)

Lemma scan_keywords_nonneg (kws : list string) (text : string) :
  (0 <= fst (scan_keywords kws text))%Z.
Proof.
  induction kws as [|kw kws IH]; simpl; [lia|].
  destruct (scan_keywords kws text) as [score found]; simpl in *.
  destruct (Str.contains kw text); simpl; lia.
Qed.

Lemma scan_keywords_score (kws : list string) (text : string) :
  fst (scan_keywords kws text) = sum_counts kws text.
Proof.
  induction kws as [|kw kws IH]; simpl; [reflexivity|].
  destruct (scan_keywords kws text) as [score found]; simpl in *.
  destruct (Str.contains kw text); simpl; lia.
Qed.

Lemma scan_keywords_found (kws : list string) (text : string) :
  snd (scan_keywords kws text) = filter (fun kw => Str.contains kw text) kws.
Proof.
  induction kws as [|kw kws IH]; simpl; [reflexivity|].
  destruct (scan_keywords kws text) as [score found]; simpl in *.
  destruct (Str.contains kw text); simpl; congruence.
Qed.

Lemma scores_in_nonneg tbl text :
  Forall (fun kv => (0 <= snd kv)%Z) (scores_in tbl text).
Proof.
  induction tbl as [|[ty kws] tbl IH]; simpl; constructor; [|exact IH].
  simpl. apply scan_keywords_nonneg.
Qed.

Lemma scores_nonneg text : Forall (fun kv => (0 <= snd kv)%Z) (scores text).
Proof. apply (scores_in_nonneg keywords). Qed.

Lemma lookup_nonneg (d : list (DrawingType * Z)) ty :
  Forall (fun kv => (0 <= snd kv)%Z) d -> (0 <= lookup d ty 0%Z)%Z.
Proof.
  induction 1 as [|[k v] d Hv _ IH]; simpl; [lia|].
  destruct (DrawingType_eqb k ty); [exact Hv | exact IH].
Qed.

Lemma score_of_nonneg text ty : (0 <= score_of text ty)%Z.
Proof. apply lookup_nonneg, scores_nonneg. Qed.

(** ** The keyword confidence *)

Lemma confidence_of_score_bounds (m : Z) :
  (0 <= m)%Z -> (0 <= Qmin (inject_Z m / 5.0) 1.0 <= 1)%Q.
Proof.
  intros Hm.
  assert (H0 : (0 <= inject_Z m / 5.0)%Q).
  { apply Qle_shift_div_l; [reflexivity|].
    rewrite Qmult_0_l. change 0%Q with (inject_Z 0).
    rewrite <- Zle_Qle. exact Hm. }
  split.
  - apply Q.min_glb; [exact H0 | discriminate].
  - apply Qle_trans with (1.0)%Q; [apply Q.le_min_r | discriminate].
Qed.

Lemma keyword_confidence_bounds (text : string) :
  (0 <= snd (fst (classify_by_keywords text)) <= 1)%Q.
Proof.
  unfold classify_by_keywords.
  destruct (negb (any_nonzero (scores text))); cbn [fst snd].
  - split; discriminate.
  - destruct (max_key (scores text)) as [best|]; cbn [fst snd].
    + apply confidence_of_score_bounds, lookup_nonneg, scores_nonneg.
    + split; discriminate.
Qed.

(** ** The fusion step *)

(** The outcome of [classify_page] in terms of the keyword baseline, the
    prefix inference and the cover-page rule. *)
Lemma classify_page_unfold Image ocr crop (image : Image) (page_num : Z) :
  let text := extract_text_from_image Image ocr crop image in
  let kt := fst (fst (classify_by_keywords text)) in
  let kc := snd (fst (classify_by_keywords text)) in
  let kws := snd (classify_by_keywords text) in
  let fused :=
    match prefix_type_of text with
    | Some p =>
        if Qltb kc 0.5 then (p, 0.7%Q)
        else if DrawingType_eqb p kt then (kt, Qmin (kc + 0.2) 1.0)
             else (kt, kc)
    | None => (kt, kc)
    end in
  classify_page Image ocr crop image page_num =
  mkResult page_num
    (if cover_override page_num text then COVER else fst fused)
    (if cover_override page_num text then 0.9%Q else snd fused)
    (firstn 5 kws) (extract_drawing_number text).
Proof.
  cbv zeta. unfold classify_page, prefix_type_of, cover_override.
  set (text := extract_text_from_image Image ocr crop image).
  destruct (classify_by_keywords text) as [[kt kc] kws]. cbn [fst snd].
  destruct (extract_drawing_number text) as [d|].
  - destruct ((0 <? String.length d)%nat).
    + destruct (classify_by_drawing_number d) as [p|].
      * destruct (Qltb kc 0.5); [|destruct (DrawingType_eqb p kt)];
          destruct ((page_num =? 1)%Z && Str.contains "cover" text);
          reflexivity.
      * destruct ((page_num =? 1)%Z && Str.contains "cover" text);
          reflexivity.
    + destruct ((page_num =? 1)%Z && Str.contains "cover" text); reflexivity.
  - destruct ((page_num =? 1)%Z && Str.contains "cover" text); reflexivity.
Qed.

(** C1. On page 1, whenever the extracted text contains the substring
    "cover", [classify_page] returns COVER with confidence exactly 0.9,
    whatever the keyword baseline and the drawing-number prefix say. *)
Theorem cover_page_override Image ocr crop (image : Image) (page_num : Z) :
  page_num = 1%Z ->
  Str.contains "cover" (extract_text_from_image Image ocr crop image) = true ->
  classification (classify_page Image ocr crop image page_num) = COVER /\
  confidence (classify_page Image ocr crop image page_num) = 0.9%Q.
Proof.
  intros -> Hcover. rewrite classify_page_unfold.
  unfold cover_override. rewrite Hcover. split; reflexivity.
Qed.

(** A first sheet that reads "floor plan" three times and carries the
    number S-101, with the word "cover" in its title block. *)
Lemma cover_page_override_witness :
  let image : Scan :=
    ("Floor Plan floor plan FLOOR PLAN S-101", "Cover sheet") in
  Str.contains "cover" (scan_text image) = true /\
  fst (fst (classify_by_keywords (scan_text image))) = FLOOR_PLAN /\
  prefix_type_of (scan_text image) = Some STRUCTURAL /\
  classification (classify_scan image 1) = COVER /\
  confidence (classify_scan image 1) = 0.9%Q.
Proof.
  intros image.
  split; [vm_compute; reflexivity|].
  split; [vm_compute; reflexivity|].
  split; [vm_compute; reflexivity|].
  apply (cover_page_override Scan scan_ocr scan_crop image 1).
  - reflexivity.
  - vm_compute; reflexivity.
Defined.

(** C9. Every result of [classify_page] has its confidence in [0, 1]. *)
Theorem confidence_in_unit_interval Image ocr crop (image : Image)
  (page_num : Z) :
  (0 <= confidence (classify_page Image ocr crop image page_num) <= 1)%Q.
Proof.
  rewrite classify_page_unfold. cbn [confidence].
  set (text := extract_text_from_image Image ocr crop image).
  pose proof (keyword_confidence_bounds text) as [Hlo Hhi].
  destruct (cover_override page_num text); [split; discriminate|].
  destruct (prefix_type_of text) as [p|]; [|split; assumption].
  destruct (Qltb _ 0.5); cbn [snd]; [split; discriminate|].
  destruct (DrawingType_eqb _ _); cbn [snd]; [|split; assumption].
  split.
  - apply Q.min_glb; [|discriminate].
    apply Qle_trans with (0 + 0)%Q; [discriminate|].
    apply Qplus_le_compat; [exact Hlo | discriminate].
  - apply Qle_trans with (1.0)%Q; [apply Q.le_min_r | discriminate].
Qed.

(** ** The first maximal key *)

Lemma max_from_split (d : list (DrawingType * Z)) :
  forall best best_score k,
    max_from best best_score d = k ->
    (k = best /\ Forall (fun kv => (snd kv <= best_score)%Z) d) \/
    (exists d1 v d2,
        d = d1 ++ (k, v) :: d2 /\ (best_score < v)%Z /\
        Forall (fun kv => (snd kv < v)%Z) d1 /\
        Forall (fun kv => (snd kv <= v)%Z) d2).
Proof.
  induction d as [|[k1 v1] d IH]; intros best bs k H; cbn [max_from] in H.
  - left. split; [congruence | constructor].
  - destruct (Z.ltb_spec bs v1) as [Hlt|Hge].
    + right. destruct (IH _ _ _ H) as [[-> Hall] | (d1 & v & d2 & -> & Hv & H1 & H2)].
      * exists [], v1, d. repeat split; [exact Hlt | constructor | exact Hall].
      * exists ((k1, v1) :: d1), v, d2. repeat split.
        -- lia.
        -- constructor; [exact Hv | exact H1].
        -- exact H2.
    + destruct (IH _ _ _ H) as [[-> Hall] | (d1 & v & d2 & -> & Hv & H1 & H2)].
      * left. split; [reflexivity|]. constructor; [exact Hge | exact Hall].
      * right. exists ((k1, v1) :: d1), v, d2. repeat split.
        -- exact Hv.
        -- constructor; [cbn [snd]; lia | exact H1].
        -- exact H2.
Qed.

(** [max] returns the first key whose value is maximal: every entry before
    it is strictly smaller, every entry after it is at most equal. *)
Lemma max_key_split (d : list (DrawingType * Z)) (k : DrawingType) :
  max_key d = Some k ->
  exists d1 v d2,
    d = d1 ++ (k, v) :: d2 /\
    Forall (fun kv => (snd kv < v)%Z) d1 /\
    Forall (fun kv => (snd kv <= v)%Z) d2.
Proof.
  destruct d as [|[k0 v0] d]; cbn [max_key]; [discriminate|].
  intros H. injection H as H.
  destruct (max_from_split d _ _ _ H) as [[-> Hall] | (d1 & v & d2 & -> & Hv & H1 & H2)].
  - exists [], v0, d. repeat split; [constructor | exact Hall].
  - exists ((k0, v0) :: d1), v, d2. repeat split.
    + constructor; [exact Hv | exact H1].
    + exact H2.
Qed.

Lemma max_key_nonempty (d : list (DrawingType * Z)) :
  d <> [] -> exists k, max_key d = Some k.
Proof.
  destruct d as [|[k v] d]; [congruence|]. intros _. eexists; reflexivity.
Qed.

Lemma lookup_app_notin {A} (d1 d2 : list (DrawingType * A)) k (def : A) :
  ~ In k (map fst d1) -> lookup (d1 ++ d2) k def = lookup d2 k def.
Proof.
  induction d1 as [|[k1 v1] d1 IH]; intros H; [reflexivity|].
  cbn [app lookup]. destruct (DrawingType_eqb k1 k) eqn:E.
  - apply DrawingType_eqb_eq in E. exfalso. apply H. left. exact E.
  - apply IH. intros Hin. apply H. right. exact Hin.
Qed.

Lemma lookup_in {A} (d : list (DrawingType * A)) k v (def : A) :
  NoDup (map fst d) -> In (k, v) d -> lookup d k def = v.
Proof.
  induction d as [|[k1 v1] d IH]; intros Hnd Hin; [destruct Hin|].
  cbn [map fst] in Hnd. apply NoDup_cons_iff in Hnd as [Hk1 Hnd].
  cbn [lookup]. destruct Hin as [Heq | Hin].
  - injection Heq as -> ->. rewrite DrawingType_eqb_refl. reflexivity.
  - destruct (DrawingType_eqb k1 k) eqn:E.
    + apply DrawingType_eqb_eq in E. subst k1. exfalso. apply Hk1.
      apply in_map_iff. exists (k, v). split; [reflexivity | exact Hin].
    + apply IH; assumption.
Qed.

Lemma lookup_le (d : list (DrawingType * Z)) ty (v : Z) :
  (0 <= v)%Z -> Forall (fun kv => (snd kv <= v)%Z) d ->
  (lookup d ty 0%Z <= v)%Z.
Proof.
  intros Hv. induction 1 as [|[k1 v1] d H1 _ IH]; cbn [lookup]; [exact Hv|].
  destruct (DrawingType_eqb k1 ty); [exact H1 | exact IH].
Qed.

Lemma index_lt_in (l1 l2 : list DrawingType) (k ty : DrawingType) :
  (index_of ty (l1 ++ k :: l2) < index_of k (l1 ++ k :: l2))%nat ->
  In ty l1.
Proof.
  induction l1 as [|x l1 IH]; cbn [app index_of].
  - rewrite DrawingType_eqb_refl. lia.
  - destruct (DrawingType_eqb x ty) eqn:Ety.
    + apply DrawingType_eqb_eq in Ety. intros _. left. exact Ety.
    + destruct (DrawingType_eqb x k); [lia|].
      intros H. right. apply IH. lia.
Qed.

Lemma scores_keys (text : string) : map fst (scores text) = declared.
Proof.
  unfold scores, declared. rewrite map_map. apply map_ext.
  intros [ty kws]. reflexivity.
Qed.

Lemma declared_order :
  declared = [COVER; PROJECT_INFO; SITE_PLAN; FLOOR_PLAN; ELEVATION; SECTION;
              ROOF_PLAN; FOUNDATION; ELECTRICAL; PLUMBING; MECHANICAL;
              STRUCTURAL; DETAIL; SCHEDULE].
Proof. reflexivity. Qed.

Lemma declared_NoDup : NoDup declared.
Proof.
  rewrite declared_order.
  repeat (constructor; [cbn [In]; intuition discriminate|]). constructor.
Qed.

Lemma any_nonzero_true (d : list (DrawingType * Z)) :
  any_nonzero d = true -> d <> [].
Proof. destruct d; [discriminate | congruence]. Qed.

(** The shape of the keyword baseline when some keyword occurs. *)
Lemma classify_by_keywords_some (text : string) :
  any_nonzero (scores text) = true ->
  exists kt d1 v d2,
    classify_by_keywords text =
      (kt, Qmin (inject_Z v / 5.0) 1.0, matched text kt) /\
    scores text = d1 ++ (kt, v) :: d2 /\
    score_of text kt = v /\
    Forall (fun kv => (snd kv < v)%Z) d1 /\
    Forall (fun kv => (snd kv <= v)%Z) d2.
Proof.
  intros Hany. unfold classify_by_keywords. rewrite Hany. cbn [negb].
  destruct (max_key_nonempty _ (any_nonzero_true _ Hany)) as [kt Hkt].
  rewrite Hkt.
  destruct (max_key_split _ _ Hkt) as (d1 & v & d2 & Hd & H1 & H2).
  assert (Hv : lookup (scores text) kt 0%Z = v).
  { apply lookup_in.
    - rewrite scores_keys. exact declared_NoDup.
    - rewrite Hd. apply in_or_app. right. left. reflexivity. }
  exists kt, d1, v, d2. rewrite Hv. repeat split; assumption.
Qed.

Lemma lookup_nonzero_in (d : list (DrawingType * Z)) ty :
  lookup d ty 0%Z <> 0%Z -> In (ty, lookup d ty 0%Z) d.
Proof.
  induction d as [|[k v] d IH]; cbn [lookup]; [congruence|].
  destruct (DrawingType_eqb k ty) eqn:E.
  - apply DrawingType_eqb_eq in E. subst k. intros _. left. reflexivity.
  - intros H. right. apply IH. exact H.
Qed.

Lemma scores_NoDup (text : string) : NoDup (map fst (scores text)).
Proof. rewrite scores_keys. exact declared_NoDup. Qed.

(** [any(scores.values())] holds exactly when some category has a
    positive raw score. *)
Lemma any_nonzero_iff (text : string) :
  any_nonzero (scores text) = true <-> exists ty, (0 < score_of text ty)%Z.
Proof.
  unfold any_nonzero. rewrite existsb_exists. split.
  - intros [[ty v] [Hin Hv]]. cbn [snd] in Hv.
    apply negb_true_iff, Z.eqb_neq in Hv. exists ty.
    unfold score_of. rewrite (lookup_in _ ty v 0%Z (scores_NoDup text) Hin).
    pose proof (scores_nonneg text) as Hall. rewrite Forall_forall in Hall.
    specialize (Hall _ Hin). cbn [snd] in Hall. lia.
  - intros [ty Hty]. exists (ty, score_of text ty). split.
    + apply lookup_nonzero_in. unfold score_of in Hty. lia.
    + cbn [snd]. apply negb_true_iff, Z.eqb_neq. lia.
Qed.

Lemma any_nonzero_false_iff (text : string) :
  any_nonzero (scores text) = false <-> forall ty, score_of text ty = 0%Z.
Proof.
  split.
  - intros H ty. pose proof (score_of_nonneg text ty) as Hn.
    destruct (Z.eq_dec (score_of text ty) 0) as [E|E]; [exact E|].
    assert (Hex : exists ty, (0 < score_of text ty)%Z) by (exists ty; lia).
    apply any_nonzero_iff in Hex. congruence.
  - intros H. destruct (any_nonzero (scores text)) eqn:E; [|reflexivity].
    apply any_nonzero_iff in E as [ty Hty]. rewrite H in Hty. lia.
Qed.

Lemma score_of_sum_in tbl (text : string) ty :
  lookup (scores_in tbl text) ty 0%Z = sum_counts (lookup tbl ty []) text.
Proof.
  induction tbl as [|[k kws] tbl IH]; [reflexivity|].
  cbn [scores_in map lookup]. destruct (DrawingType_eqb k ty).
  - apply scan_keywords_score.
  - exact IH.
Qed.

(** The facts about the chosen category that both C3 and C10 rest on. *)
Lemma best_type_first_max (text : string) :
  (exists ty, (0 < score_of text ty)%Z) ->
  let kt := fst (fst (classify_by_keywords text)) in
  let kc := snd (fst (classify_by_keywords text)) in
  In kt declared /\
  (forall ty, (score_of text ty <= score_of text kt)%Z) /\
  (forall ty, (rank ty < rank kt)%nat ->
              (score_of text ty < score_of text kt)%Z) /\
  kc = Qmin (inject_Z (score_of text kt) / 5.0) 1.0.
Proof.
  intros Hex. apply any_nonzero_iff in Hex.
  destruct (classify_by_keywords_some text Hex)
    as (kt & d1 & v & d2 & Hc & Hd & Hv & H1 & H2).
  rewrite Hc. cbn [fst snd]. rewrite Hv.
  pose proof (scores_keys text) as Hkeys. rewrite Hd, map_app in Hkeys.
  cbn [map fst] in Hkeys.
  pose proof (scores_NoDup text) as Hnd.
  assert (Hv0 : (0 <= v)%Z) by (rewrite <- Hv; apply score_of_nonneg).
  repeat split.
  - rewrite <- Hkeys. apply in_or_app. right. left. reflexivity.
  - intros ty. unfold score_of. rewrite Hd. apply lookup_le; [exact Hv0|].
    apply Forall_app. split.
    + eapply Forall_impl; [|exact H1]. cbv beta. intros; lia.
    + constructor; [cbn [snd]; lia | exact H2].
  - intros ty Hrank. unfold rank in Hrank. rewrite <- Hkeys in Hrank.
    apply index_lt_in in Hrank. apply in_map_iff in Hrank as [[ty' v'] [E Hin]].
    cbn [fst] in E. subst ty'.
    rewrite Forall_forall in H1. pose proof (H1 _ Hin) as Hlt. cbn [snd] in Hlt.
    unfold score_of. rewrite (lookup_in _ ty v' 0%Z Hnd); [exact Hlt|].
    rewrite Hd. apply in_or_app. left. exact Hin.
Qed.

(** C3 (amended). The raw score of a category is the sum of
    [text.count(keyword)] over its keywords that occur in the text.  When
    some raw score is positive, the keyword type is a declared category of
    maximal raw score and the keyword confidence is
    [min(raw_score / 5.0, 1.0)].  When every raw score is zero the guard
    of [classify_by_keywords] returns UNKNOWN with confidence 0.0, which
    no category of the table is. *)
Theorem keyword_baseline (text : string) :
  let kt := fst (fst (classify_by_keywords text)) in
  let kc := snd (fst (classify_by_keywords text)) in
  (forall ty, score_of text ty = sum_counts (keywords_of ty) text) /\
  ((exists ty, (0 < score_of text ty)%Z) ->
   In kt declared /\
   (forall ty, (score_of text ty <= score_of text kt)%Z) /\
   kc = Qmin (inject_Z (score_of text kt) / 5.0) 1.0) /\
  ((forall ty, score_of text ty = 0%Z) -> kt = UNKNOWN /\ kc = 0.0%Q).
Proof.
  cbv zeta. split; [|split].
  - intros ty. apply (score_of_sum_in keywords).
  - intros Hex. destruct (best_type_first_max text Hex) as (H1 & H2 & _ & H4).
    repeat split; assumption.
  - intros Hzero. apply any_nonzero_false_iff in Hzero.
    unfold classify_by_keywords. rewrite Hzero. split; reflexivity.
Qed.

(** "floor plan" twice and "layout" once: FLOOR_PLAN scores 3. *)
Lemma keyword_baseline_witness :
  let text := "floor plan, layout; floor plan" in
  (exists ty, (0 < score_of text ty)%Z) /\
  fst (fst (classify_by_keywords text)) = FLOOR_PLAN /\
  score_of text FLOOR_PLAN = 3%Z /\
  In (fst (fst (classify_by_keywords text))) declared /\
  (forall ty, (score_of text ty
               <= score_of text (fst (fst (classify_by_keywords text))))%Z) /\
  snd (fst (classify_by_keywords text)) =
    Qmin (inject_Z (score_of text (fst (fst (classify_by_keywords text)))) / 5.0)
         1.0.
Proof.
  intros text.
  assert (Hex : exists ty, (0 < score_of text ty)%Z)
    by (exists FLOOR_PLAN; vm_compute; reflexivity).
  split; [exact Hex|].
  split; [vm_compute; reflexivity|].
  split; [vm_compute; reflexivity|].
  exact (proj1 (proj2 (keyword_baseline text)) Hex).
Defined.

(** C3 as stated fails on the empty text: every category has raw score
    0, and the keyword type is UNKNOWN, which is not a category of the
    score table at all (so not the one of maximal raw score). *)
Lemma keyword_baseline_counterexample :
  let kt := fst (fst (classify_by_keywords EmptyString)) in
  kt = UNKNOWN /\
  max_key (scores EmptyString) = Some COVER /\
  ~ (In kt declared /\
     forall ty, (score_of EmptyString ty <= score_of EmptyString kt)%Z).
Proof.
  cbv zeta. split; [reflexivity|]. split; [reflexivity|].
  intros [Hin _]. vm_compute in Hin. intuition discriminate.
Qed.

(** C10 (amended). When the maximal raw score is positive, the keyword
    type is the category of maximal raw score that is declared earliest in
    the keyword table: every category declared before it has a strictly
    smaller raw score, so among categories that tie for the maximum it has
    the least rank. *)
Theorem tie_break_declaration_order (text : string) :
  (exists ty, (0 < score_of text ty)%Z) ->
  let kt := fst (fst (classify_by_keywords text)) in
  declared = [COVER; PROJECT_INFO; SITE_PLAN; FLOOR_PLAN; ELEVATION; SECTION;
              ROOF_PLAN; FOUNDATION; ELECTRICAL; PLUMBING; MECHANICAL;
              STRUCTURAL; DETAIL; SCHEDULE] /\
  In kt declared /\
  (forall ty, (score_of text ty <= score_of text kt)%Z) /\
  (forall ty, score_of text ty = score_of text kt -> (rank kt <= rank ty)%nat).
Proof.
  intros Hex. destruct (best_type_first_max text Hex) as (H1 & H2 & H3 & _).
  cbv zeta. repeat split; try assumption.
  intros ty Heq. destruct (Nat.le_gt_cases
    (rank (fst (fst (classify_by_keywords text)))) (rank ty)) as [L|G];
    [exact L|].
  specialize (H3 ty G). lia.
Qed.

(** "survey" (SITE_PLAN) and "layout" (FLOOR_PLAN) tie at 1: SITE_PLAN,
    declared first, wins. *)
Lemma tie_break_declaration_order_witness :
  let text := "layout of the survey" in
  score_of text SITE_PLAN = 1%Z /\ score_of text FLOOR_PLAN = 1%Z /\
  fst (fst (classify_by_keywords text)) = SITE_PLAN /\
  (forall ty, score_of text ty = score_of text SITE_PLAN ->
              (rank SITE_PLAN <= rank ty)%nat).
Proof.
  intros text.
  split; [vm_compute; reflexivity|].
  split; [vm_compute; reflexivity|].
  split; [vm_compute; reflexivity|].
  assert (Hex : exists ty, (0 < score_of text ty)%Z)
    by (exists SITE_PLAN; vm_compute; reflexivity).
  exact (proj2 (proj2 (proj2 (tie_break_declaration_order text Hex)))).
Defined.

(** C10 as stated fails on the empty text: all fourteen categories tie at
    the maximal raw score 0, COVER is declared first, and the function
    returns UNKNOWN. *)
Lemma tie_break_counterexample :
  let text := EmptyString in
  (forall ty, In ty declared -> score_of text ty = 0%Z) /\
  (forall ty, (score_of text ty <= 0)%Z) /\
  rank COVER = 0%nat /\
  fst (fst (classify_by_keywords text)) = UNKNOWN /\
  fst (fst (classify_by_keywords text)) <> COVER.
Proof.
  cbv zeta. split; [|split; [|split; [|split]]].
  - intros ty _. destruct ty; reflexivity.
  - intros ty. destruct ty; vm_compute; discriminate.
  - reflexivity.
  - reflexivity.
  - vm_compute. discriminate.
Qed.

(** ** Evidence *)

Lemma lookup_absent {A} (d : list (DrawingType * A)) ty (def : A) :
  ~ In ty (map fst d) -> lookup d ty def = def.
Proof.
  induction d as [|[k v] d IH]; intros H; [reflexivity|].
  cbn [lookup]. destruct (DrawingType_eqb k ty) eqn:E.
  - apply DrawingType_eqb_eq in E. exfalso. apply H. left. exact E.
  - apply IH. intros Hin. apply H. right. exact Hin.
Qed.

Lemma matched_filter_in tbl (text : string) ty :
  lookup (map (fun '(ty, kws) => (ty, snd (scan_keywords kws text))) tbl) ty []
  = filter (fun kw => Str.contains kw text) (lookup tbl ty []).
Proof.
  induction tbl as [|[k kws] tbl IH]; [reflexivity|].
  cbn [map lookup]. destruct (DrawingType_eqb k ty).
  - apply scan_keywords_found.
  - exact IH.
Qed.

Lemma matched_filter (text : string) ty :
  matched text ty = filter (fun kw => Str.contains kw text) (keywords_of ty).
Proof. apply (matched_filter_in keywords). Qed.

Lemma matched_unknown (text : string) : matched text UNKNOWN = [].
Proof. rewrite matched_filter. reflexivity. Qed.

(** The list returned by [classify_by_keywords] is the matched-keyword
    list of the keyword type. *)
Lemma classify_by_keywords_evidence (text : string) :
  snd (classify_by_keywords text) =
  matched text (fst (fst (classify_by_keywords text))).
Proof.
  unfold classify_by_keywords.
  destruct (negb (any_nonzero (scores text))); cbn [fst snd].
  - symmetry. apply matched_unknown.
  - destruct (max_key (scores text)) as [best|]; cbn [fst snd].
    + reflexivity.
    + symmetry. apply matched_unknown.
Qed.

(** C5 (amended). The evidence list of the result is the matched-keyword
    list of the keyword-baseline category, in keyword-table order,
    truncated to its first five entries; it is the list of the final
    category whenever the final category is the keyword type. *)
Theorem evidence_of_keyword_type Image ocr crop (image : Image)
  (page_num : Z) :
  let text := extract_text_from_image Image ocr crop image in
  let kt := fst (fst (classify_by_keywords text)) in
  let r := classify_page Image ocr crop image page_num in
  keywords_found r = firstn 5 (matched text kt) /\
  matched text kt = filter (fun kw => Str.contains kw text) (keywords_of kt) /\
  (List.length (keywords_found r) <= 5)%nat /\
  (classification r = kt ->
   keywords_found r = firstn 5 (matched text (classification r))).
Proof.
  cbv zeta. rewrite classify_page_unfold. cbn [keywords_found classification].
  rewrite classify_by_keywords_evidence. repeat split.
  - apply matched_filter.
  - apply firstn_le_length.
  - intros ->. reflexivity.
Qed.

(** A sheet numbered A-101 whose only keyword is "cover", on page 2. *)
Lemma evidence_of_keyword_type_witness :
  let image : Scan := ("Cover A-101", "") in
  let r := classify_scan image 2 in
  fst (fst (classify_by_keywords (scan_text image))) = COVER /\
  keywords_found r = firstn 5 (matched (scan_text image) COVER).
Proof.
  intros image r. split; [vm_compute; reflexivity|].
  exact (proj1 (evidence_of_keyword_type Scan scan_ocr scan_crop image 2)).
Defined.

(** C5 as stated fails when the prefix rule changes the category: on
    page 2, the text "cover a-101" is classified FLOOR_PLAN by its
    drawing number, and the evidence is still COVER's list ["cover"],
    whereas no FLOOR_PLAN keyword occurs in the text. *)
Lemma evidence_counterexample :
  let image : Scan := ("cover a-101", "") in
  let r := classify_scan image 2 in
  classification r = FLOOR_PLAN /\
  keywords_found r = ["cover"] /\
  matched (scan_text image) FLOOR_PLAN = [] /\
  keywords_found r <> firstn 5 (matched (scan_text image) (classification r)).
Proof.
  cbv zeta. split; [vm_compute; reflexivity|].
  split; [vm_compute; reflexivity|].
  split; [vm_compute; reflexivity|].
  vm_compute. discriminate.
Qed.

(** The same happens under the cover-page rule: on page 1 the text below
    is forced to COVER while the evidence is FLOOR_PLAN's. *)
Example evidence_under_cover_override :
  let image : Scan := ("cover floor plan floor plan", "") in
  let r := classify_scan image 1 in
  classification r = COVER /\
  keywords_found r = ["floor plan"] /\
  matched (scan_text image) COVER = ["cover"].
Proof. cbv zeta. repeat split; vm_compute; reflexivity. Qed.

(** ** Drawing numbers *)

Lemma match_here_length (p : pattern) :
  forall s m, match_here p s = Some m -> String.length m = List.length p.
Proof.
  induction p as [|cls p IH]; intros s m; cbn [match_here].
  - intros H. injection H as <-. reflexivity.
  - destruct s as [|a s]; [discriminate|].
    destruct (cls a); [|discriminate].
    destruct (match_here p s) as [m'|] eqn:E; [|discriminate].
    cbn [option_map]. intros H. injection H as <-.
    cbn [String.length List.length]. f_equal. apply (IH s). exact E.
Qed.

Lemma re_search_length (p : pattern) (s m : string) :
  re_search p s = Some m -> String.length m = List.length p.
Proof.
  induction s as [|a s IH]; cbn [re_search].
  - destruct (match_here p EmptyString) eqn:E; [|discriminate].
    intros H. injection H as <-. apply (match_here_length p _ _ E).
  - destruct (match_here p (String a s)) eqn:E.
    + intros H. injection H as <-. apply (match_here_length p _ _ E).
    + exact IH.
Qed.

Lemma extract_drawing_number_nonempty (text d : string) :
  extract_drawing_number text = Some d -> (0 <? String.length d)%nat = true.
Proof.
  unfold extract_drawing_number, patterns. cbn [first_match].
  repeat match goal with
         | |- context [re_search ?p ?s] =>
             let E := fresh "E" in
             destruct (re_search p s) eqn:E;
             [ intros H; injection H as <-;
               apply re_search_length in E; rewrite E; reflexivity | ]
         end.
  discriminate.
Qed.

Lemma prefix_type_of_some (text d : string) :
  extract_drawing_number text = Some d ->
  prefix_type_of text = classify_by_drawing_number d.
Proof.
  intros H. unfold prefix_type_of.
  rewrite H, (extract_drawing_number_nonempty text d H). reflexivity.
Qed.

Lemma prefix_type_of_none (text : string) :
  extract_drawing_number text = None -> prefix_type_of text = None.
Proof. intros H. unfold prefix_type_of. rewrite H. reflexivity. Qed.

Lemma drawing_prefixes_table (c : ascii) :
  ~ In c prefix_letters -> drawing_prefixes c = None.
Proof.
  intros H. unfold drawing_prefixes.
  repeat match goal with
         | |- context [Ascii.eqb c ?x] =>
             destruct (Ascii.eqb_spec c x) as [->|_];
             [exfalso; apply H; cbn [prefix_letters In]; tauto|]
         end.
  reflexivity.
Qed.

(** C2 (amended). When the cover-page rule does not apply: a drawing
    number whose prefix maps to a category [p] gives [p] with confidence
    0.7 if the keyword confidence is below 0.5; otherwise, if [p] is the
    keyword type, the keyword type with confidence
    [min (keyword_confidence + 0.2, 1.0)], and if [p] differs from it, the
    keyword result unchanged.  A drawing number whose prefix is not in the
    table (A, S, E, M, P, L, C), or no drawing number, leaves the keyword
    result unchanged. *)
Theorem prefix_fusion Image ocr crop (image : Image) (page_num : Z) :
  let text := extract_text_from_image Image ocr crop image in
  let kt := fst (fst (classify_by_keywords text)) in
  let kc := snd (fst (classify_by_keywords text)) in
  let r := classify_page Image ocr crop image page_num in
  cover_override page_num text = false ->
  (forall d p,
      extract_drawing_number text = Some d ->
      classify_by_drawing_number d = Some p ->
      ((kc < 0.5)%Q -> classification r = p /\ confidence r = 0.7%Q) /\
      ((0.5 <= kc)%Q -> p = kt ->
       classification r = kt /\ confidence r = Qmin (kc + 0.2) 1.0) /\
      ((0.5 <= kc)%Q -> p <> kt ->
       classification r = kt /\ confidence r = kc)) /\
  (forall d,
      extract_drawing_number text = Some d ->
      classify_by_drawing_number d = None ->
      classification r = kt /\ confidence r = kc) /\
  (extract_drawing_number text = None ->
   classification r = kt /\ confidence r = kc) /\
  (forall c rest,
      ~ In (Str.upper_char c) prefix_letters ->
      classify_by_drawing_number (String c rest) = None).
Proof.
  cbv zeta. intros Hcov. rewrite classify_page_unfold.
  cbn [classification confidence]. rewrite Hcov.
  set (text := extract_text_from_image Image ocr crop image).
  split; [|split; [|split]].
  - intros d p Hd Hp. rewrite (prefix_type_of_some text d Hd), Hp.
    split; [|split].
    + intros Hlt. apply Qltb_lt in Hlt. rewrite Hlt. split; reflexivity.
    + intros Hge Heq. apply Qltb_ge in Hge. rewrite Hge.
      subst p. rewrite DrawingType_eqb_refl. split; reflexivity.
    + intros Hge Hne. apply Qltb_ge in Hge. rewrite Hge.
      apply DrawingType_eqb_neq in Hne. rewrite Hne. split; reflexivity.
  - intros d Hd Hp. rewrite (prefix_type_of_some text d Hd), Hp.
    split; reflexivity.
  - intros Hd. rewrite (prefix_type_of_none text Hd). split; reflexivity.
  - intros c rest Hc. cbn [classify_by_drawing_number].
    apply drawing_prefixes_table. exact Hc.
Qed.

(** Sheet A-101 with no keyword, on page 2: FLOOR_PLAN at 0.7. *)
Lemma prefix_fusion_witness :
  let image : Scan := ("A-101", "") in
  let r := classify_scan image 2 in
  cover_override 2 (scan_text image) = false /\
  extract_drawing_number (scan_text image) = Some "A-101" /\
  classification r = FLOOR_PLAN /\ confidence r = 0.7%Q.
Proof.
  intros image r.
  assert (Hcov : cover_override 2 (scan_text image) = false)
    by (vm_compute; reflexivity).
  assert (Hd : extract_drawing_number (scan_text image) = Some "A-101")
    by (vm_compute; reflexivity).
  split; [exact Hcov|]. split; [exact Hd|].
  destruct (prefix_fusion Scan scan_ocr scan_crop image 2 Hcov) as [H _].
  destruct (H "A-101" FLOOR_PLAN Hd eq_refl) as [Hlow _].
  apply Hlow. vm_compute. reflexivity.
Defined.

(** C2 as stated fails on page 1 when the text contains "cover": the
    text "cover a-101" has keyword confidence 0.2 and the mapped prefix
    A, and the result is COVER at 0.9, not FLOOR_PLAN at 0.7. *)
Lemma prefix_fusion_counterexample :
  let image : Scan := ("cover a-101", "") in
  let text := scan_text image in
  let r := classify_scan image 1 in
  extract_drawing_number text = Some "A-101" /\
  classify_by_drawing_number "A-101" = Some FLOOR_PLAN /\
  (snd (fst (classify_by_keywords text)) < 0.5)%Q /\
  ~ (classification r = FLOOR_PLAN /\ confidence r = 0.7%Q).
Proof.
  cbv zeta. split; [vm_compute; reflexivity|].
  split; [reflexivity|]. split; [vm_compute; reflexivity|].
  intros [H _]. vm_compute in H. discriminate.
Qed.

(** ** Monotonicity *)


Lemma confidence_of_score_saturated (m : Z) :
  (5 <= m)%Z -> (Qmin (inject_Z m / 5.0) 1.0 == 1)%Q.
Proof.
  intros H. rewrite Q.min_r; [reflexivity|].
  apply Qle_shift_div_l; [reflexivity|].
  apply Qle_trans with (inject_Z 5); [discriminate|].
  rewrite <- Zle_Qle. exact H.
Qed.







(** Without the hypothesis on the returned category the confidence can
    also drop under the prefix rule: with sheet number S-101, two
    occurrences of "floor plan" give STRUCTURAL at 0.7, three give
    FLOOR_PLAN at 0.6. *)
Example confidence_drop_on_prefix_disagreement :
  let r1 := classify_scan ("s-101 floor plan floor plan", "") 2 in
  let r2 := classify_scan ("s-101 floor plan floor plan floor plan", "") 2 in
  classification r1 = STRUCTURAL /\ confidence r1 = 0.7%Q /\
  classification r2 = FLOOR_PLAN /\ (confidence r2 == 0.6)%Q.
Proof. cbv zeta. repeat split; vm_compute; reflexivity. Qed.

(** ** Degenerate input *)



Lemma keyword_free_spec (text : string) :
  keyword_free text = true <->
  forall ty kws kw, In (ty, kws) keywords -> In kw kws ->
                    Str.contains kw text = false.
Proof.
  unfold keyword_free. rewrite forallb_forall. split.
  - intros H ty kws kw Hin Hkw. specialize (H _ Hin). cbv beta iota in H.
    rewrite forallb_forall in H. specialize (H _ Hkw).
    apply negb_true_iff in H. exact H.
  - intros H [ty kws] Hin. rewrite forallb_forall. intros kw Hkw.
    apply negb_true_iff. exact (H ty kws kw Hin Hkw).
Qed.

Lemma scan_keywords_free (kws : list string) (text : string) :
  (forall kw, In kw kws -> Str.contains kw text = false) ->
  scan_keywords kws text = (0%Z, []).
Proof.
  induction kws as [|kw kws IH]; intros H; [reflexivity|].
  cbn [scan_keywords]. rewrite IH by (intros k Hk; apply H; right; exact Hk).
  rewrite (H kw) by (left; reflexivity). reflexivity.
Qed.

Lemma any_nonzero_free tbl (text : string) :
  (forall ty kws kw, In (ty, kws) tbl -> In kw kws ->
                     Str.contains kw text = false) ->
  any_nonzero (scores_in tbl text) = false.
Proof.
  induction tbl as [|[ty kws] tbl IH]; intros H; [reflexivity|].
  cbn [scores_in map any_nonzero existsb snd].
  rewrite scan_keywords_free
    by (intros kw Hkw; apply (H ty kws kw); [left; reflexivity | exact Hkw]).
  cbn [fst Z.eqb negb orb]. apply IH.
  intros ty' kws' kw Hin Hkw. apply (H ty' kws' kw); [right|]; assumption.
Qed.

Lemma classify_by_keywords_free (text : string) :
  keyword_free text = true ->
  classify_by_keywords text = (UNKNOWN, 0.0%Q, []).
Proof.
  intros H. unfold classify_by_keywords.
  change (scores text) with (scores_in keywords text).
  rewrite any_nonzero_free; [reflexivity|].
  apply keyword_free_spec; exact H.
Qed.

Lemma keywords_start_nonspace :
  forallb (fun '(_, kws) => forallb Str.starts_nonspace kws) keywords = true.
Proof. vm_compute; reflexivity. Qed.

Lemma all_space_keyword_free (text : string) :
  Str.all_space text = true -> keyword_free text = true.
Proof.
  intros Hsp. apply keyword_free_spec. intros ty kws kw Hin Hkw.
  pose proof keywords_start_nonspace as H. rewrite forallb_forall in H.
  specialize (H _ Hin). cbv beta iota in H. rewrite forallb_forall in H.
  specialize (H _ Hkw). destruct kw as [|c k]; [discriminate|].
  apply StrFacts.all_space_no_substring; [exact Hsp|].
  apply negb_true_iff; exact H.
Qed.

Lemma re_search_all_space (p : pattern) (s : string) :
  Str.all_space s = true -> re_search (Str.is_upper :: p) s = None.
Proof.
  induction s as [|a s IH]; intros H; [reflexivity|].
  rewrite StrFacts.all_space_cons in H. apply andb_true_iff in H as [Ha Hs].
  cbn [re_search match_here]. rewrite (StrFacts.space_not_upper a Ha).
  apply IH; exact Hs.
Qed.

Lemma all_space_no_drawing_number (text : string) :
  Str.all_space text = true -> extract_drawing_number text = None.
Proof.
  intros H. unfold extract_drawing_number.
  rewrite (StrFacts.all_space_upper text H).
  unfold patterns. cbn [first_match].
  rewrite !re_search_all_space by exact H. reflexivity.
Qed.

(** C4. For empty, whitespace-only, or keyword-free and
    drawing-number-free text, the keyword baseline is (UNKNOWN, 0.0, [])
    and [classify_page] returns UNKNOWN with confidence 0.0, no evidence
    and no drawing number.  Both functions are total: there is no input on
    which they fail. *)
Theorem degenerate_text_unknown Image ocr crop (image : Image)
  (page_num : Z) :
  let text := extract_text_from_image Image ocr crop image in
  text = EmptyString \/ Str.all_space text = true \/
  (keyword_free text = true /\ extract_drawing_number text = None) ->
  classify_by_keywords text = (UNKNOWN, 0.0%Q, []) /\
  classify_page Image ocr crop image page_num =
  mkResult page_num UNKNOWN 0.0%Q [] None.
Proof.
  intros text H.
  assert (Hfree : keyword_free text = true /\
                  extract_drawing_number text = None).
  { destruct H as [H | [H | H]].
    - rewrite H. split; reflexivity.
    - split; [apply all_space_keyword_free | apply all_space_no_drawing_number];
        exact H.
    - exact H. }
  destruct Hfree as [Hkw Hnum].
  pose proof (classify_by_keywords_free text Hkw) as Hk.
  split; [exact Hk|].
  rewrite classify_page_unfold. fold text.
  unfold prefix_type_of, cover_override. rewrite Hk, Hnum. cbn [fst snd firstn].
  assert (Hc : Str.contains "cover" text = false).
  { eapply (proj1 (keyword_free_spec text) Hkw COVER).
    - left; reflexivity.
    - left; reflexivity. }
  rewrite Hc, andb_false_r. reflexivity.
Qed.

(** A blank sheet: the OCR engine reads only spaces and line breaks. *)
Lemma degenerate_text_unknown_witness :
  let image : Scan := ("   ", String "010" " ") in
  Str.all_space (scan_text image) = true /\
  classify_by_keywords (scan_text image) = (UNKNOWN, 0.0%Q, []) /\
  classify_scan image 3 = mkResult 3 UNKNOWN 0.0%Q [] None.
Proof.
  intros image. split; [vm_compute; reflexivity|].
  apply (degenerate_text_unknown Scan scan_ocr scan_crop image 3).
  right; left. vm_compute; reflexivity.
Defined.

End DrawingClassifierFacts.

(** * Properties of the zone-weighted classifier ([src/app/classifier.py]) *)

Module ZoneClassifierFacts.
Import ZoneClassifier.
Local Open Scope list_scope.
Local Open Scope Z_scope.

(** ** Reading a score after an update *)

Lemma get_add (scores : score_map) (k c : string) (n : Z) :
  get (add scores k n) c = get scores c + (if String.eqb k c then n else 0).
Proof.
  induction scores as [|[k' v] rest IH]; cbn [add get].
  - destruct (String.eqb k c); lia.
  - destruct (String.eqb_spec k' k) as [->|Hk]; cbn [get].
    + destruct (String.eqb k c); lia.
    + destruct (String.eqb_spec k' c) as [->|Hc].
      * destruct (String.eqb_spec k c) as [->|_]; [congruence | lia].
      * exact IH.
Qed.

Lemma hits_cons (text tag : string) (tags : list string) :
  hits text (tag :: tags) =
  (if Str.contains tag text then 1 else 0) + hits text tags.
Proof.
  unfold hits. cbn [filter]. destruct (Str.contains tag text).
  - cbn [List.length]. lia.
  - lia.
Qed.

Lemma get_tag_loop (w : Z) (text category : string) (tags : list string) :
  forall scores c,
    get (tag_loop w text category tags scores) c =
    get scores c + (if String.eqb category c then w * hits text tags else 0).
Proof.
  unfold tag_loop. induction tags as [|tag tags IH]; intros scores c.
  - cbn [fold_left]. change (hits text []) with 0.
    destruct (String.eqb category c); lia.
  - cbn [fold_left]. rewrite IH, hits_cons.
    destruct (Str.contains tag text).
    + rewrite get_add. destruct (String.eqb category c); lia.
    + destruct (String.eqb category c); lia.
Qed.

Lemma get_table_loop_in (w : Z) (text : string) tbl :
  forall scores c,
    get (fold_left
           (fun sc '(category, tags) => tag_loop w text category tags sc)
           tbl scores) c =
    get scores c + w * table_hits tbl text c.
Proof.
  induction tbl as [|[category tags] tbl IH]; intros scores c.
  - cbn [fold_left table_hits fold_right]. lia.
  - cbn [fold_left table_hits fold_right]. rewrite IH, get_tag_loop.
    fold (table_hits tbl text c). destruct (String.eqb category c); lia.
Qed.

Lemma get_table_loop (w : Z) (text : string) (scores : score_map) c :
  get (table_loop w text scores) c =
  get scores c + w * table_hits KEYWORDS text c.
Proof. apply get_table_loop_in. Qed.

Lemma get_zone_pass (zones : list string) :
  forall scores c,
    get (zone_pass zones scores) c =
    get scores c + 3 * zone_hits KEYWORDS zones c.
Proof.
  unfold zone_pass. induction zones as [|zone zones IH]; intros scores c.
  - cbn [fold_left zone_hits fold_right]. lia.
  - cbn [fold_left zone_hits fold_right]. rewrite IH, get_table_loop.
    fold (zone_hits KEYWORDS zones c). lia.
Qed.

Lemma get_density_bonus (full_text : string) (scores : score_map) c :
  get (density_bonus full_text scores) c = get scores c + bonus full_text c.
Proof.
  unfold density_bonus, bonus.
  destruct (2000 <? Z.of_nat (String.length full_text)).
  - apply get_add.
  - lia.
Qed.

(** The score of a category: 3 per zone match, 1 per full-text match,
    and the density bonus. *)
Lemma get_score_page (zones : list string) (full_text c : string) :
  get (score_page zones full_text) c =
  3 * zone_hits KEYWORDS zones c + table_hits KEYWORDS full_text c
  + bonus full_text c.
Proof.
  unfold score_page.
  rewrite get_density_bonus, get_table_loop, get_zone_pass. cbn [get]. lia.
Qed.

(** ** From the table to one category's tags *)

Lemma table_hits_absent tbl (text c : string) :
  ~ In c (map fst tbl) -> table_hits tbl text c = 0.
Proof.
  induction tbl as [|[k tags] tbl IH]; intros H; [reflexivity|].
  cbn [table_hits fold_right]. fold (table_hits tbl text c).
  destruct (String.eqb_spec k c) as [->|_].
  - exfalso. apply H. left. reflexivity.
  - rewrite IH; [lia|]. intros Hin. apply H. right. exact Hin.
Qed.

Lemma table_hits_in tbl (text c : string) (tags : list string) :
  NoDup (map fst tbl) -> In (c, tags) tbl ->
  table_hits tbl text c = hits text tags.
Proof.
  induction tbl as [|[k tags'] tbl IH]; intros Hnd Hin; [destruct Hin|].
  cbn [map fst] in Hnd. apply NoDup_cons_iff in Hnd as [Hk Hnd].
  cbn [table_hits fold_right]. fold (table_hits tbl text c).
  destruct Hin as [Heq | Hin].
  - injection Heq as -> ->. rewrite String.eqb_refl.
    rewrite table_hits_absent by exact Hk. lia.
  - destruct (String.eqb_spec k c) as [->|_].
    + exfalso. apply Hk. apply in_map_iff. exists (c, tags).
      split; [reflexivity | exact Hin].
    + rewrite (IH Hnd Hin). lia.
Qed.

Lemma KEYWORDS_keys_NoDup : NoDup (map fst KEYWORDS).
Proof.
  cbn [KEYWORDS map fst].
  repeat (constructor; [cbn [In]; intuition discriminate|]). constructor.
Qed.


(** ** Exchanging the sums over zones and over tags *)









(** ** Texts without keywords *)

Lemma zone_keyword_free_spec (text : string) :
  keyword_free text = true <->
  forall c tags tag, In (c, tags) KEYWORDS -> In tag tags ->
                     Str.contains tag text = false.
Proof.
  unfold keyword_free. rewrite forallb_forall. split.
  - intros H c tags tag Hin Htag. specialize (H _ Hin). cbv beta iota in H.
    rewrite forallb_forall in H. specialize (H _ Htag).
    apply negb_true_iff in H. exact H.
  - intros H [c tags] Hin. rewrite forallb_forall. intros tag Htag.
    apply negb_true_iff. exact (H c tags tag Hin Htag).
Qed.

Lemma tag_loop_free (w : Z) (text category : string) (tags : list string)
  (scores : score_map) :
  (forall tag, In tag tags -> Str.contains tag text = false) ->
  tag_loop w text category tags scores = scores.
Proof.
  unfold tag_loop. revert scores.
  induction tags as [|tag tags IH]; intros scores H; [reflexivity|].
  cbn [fold_left]. rewrite (H tag) by (left; reflexivity).
  apply IH. intros t Ht. apply H. right. exact Ht.
Qed.

Lemma table_loop_free_in (w : Z) (text : string) tbl (scores : score_map) :
  (forall c tags tag, In (c, tags) tbl -> In tag tags ->
                      Str.contains tag text = false) ->
  fold_left (fun sc '(category, tags) => tag_loop w text category tags sc)
            tbl scores = scores.
Proof.
  revert scores.
  induction tbl as [|[c tags] tbl IH]; intros scores H; [reflexivity|].
  cbn [fold_left]. rewrite tag_loop_free.
  - apply IH. intros c' tags' tag Hin Htag.
    apply (H c' tags' tag); [right; exact Hin | exact Htag].
  - intros tag Htag. apply (H c tags tag); [left; reflexivity | exact Htag].
Qed.

Lemma table_loop_free (w : Z) (text : string) (scores : score_map) :
  keyword_free text = true -> table_loop w text scores = scores.
Proof.
  intros H. apply table_loop_free_in. apply zone_keyword_free_spec. exact H.
Qed.

Lemma zone_pass_free (zones : list string) (scores : score_map) :
  forallb keyword_free zones = true -> zone_pass zones scores = scores.
Proof.
  unfold zone_pass. revert scores.
  induction zones as [|zone zones IH]; intros scores H; [reflexivity|].
  cbn [forallb] in H. apply andb_true_iff in H as [Hz Hzs].
  cbn [fold_left]. rewrite (table_loop_free 3 zone scores Hz).
  apply IH. exact Hzs.
Qed.

Lemma classify_page_pick Page width height within words (page : Page) :
  classify_page Page width height within words page =
  pick (scores_of_page Page width height within words page).
Proof. reflexivity. Qed.

(** C7. When the full-page text is longer than 2000 characters, the
    scorer adds 3 to the score GENERAL_NOTES has after the zone and
    full-text passes; and if moreover no keyword of the table occurs in the
    page's text (full-page text and zone texts), the page is classified
    GENERAL_NOTES, not UNKNOWN. *)
Theorem density_bonus_general_notes Page width height within words
  (page : Page) :
  let zones := map snd (extract_zones Page width height within page) in
  let full_text := extract_words_text Page words page in
  2000 < Z.of_nat (String.length full_text) ->
  get (scores_of_page Page width height within words page) "GENERAL_NOTES" =
    get (table_loop 1 full_text (zone_pass zones [])) "GENERAL_NOTES" + 3 /\
  (keyword_free full_text = true -> forallb keyword_free zones = true ->
   classify_page Page width height within words page = "GENERAL_NOTES").
Proof.
  cbv zeta. intros Hlen. apply Z.ltb_lt in Hlen. split.
  - unfold scores_of_page, score_page. rewrite get_density_bonus.
    unfold bonus. rewrite Hlen. reflexivity.
  - intros Hfull Hzones. unfold classify_page.
    rewrite (zone_pass_free _ [] Hzones), (table_loop_free 1 _ [] Hfull).
    unfold density_bonus. rewrite Hlen. reflexivity.
Qed.

(** A page of 400 words of filler, 2399 characters, with empty
    title-block zones. *)
Lemma density_bonus_general_notes_witness :
  let sheet := mkSheet 100 100 [] (List.repeat "Lorem" 400) in
  2000 < Z.of_nat (String.length (sheet_full_text sheet)) /\
  keyword_free (sheet_full_text sheet) = true /\
  get (sheet_scores sheet) "GENERAL_NOTES" = 3 /\
  classify_sheet sheet = "GENERAL_NOTES".
Proof.
  intros sheet.
  assert (Hlen : 2000 < Z.of_nat (String.length (sheet_full_text sheet)))
    by (vm_compute; reflexivity).
  assert (Hfree : keyword_free (sheet_full_text sheet) = true)
    by (vm_compute; reflexivity).
  split; [exact Hlen|]. split; [exact Hfree|].
  split; [vm_compute; reflexivity|].
  apply (proj2 (density_bonus_general_notes Sheet sheet_width sheet_height
                  sheet_extract_text sheet_words sheet Hlen)).
  - exact Hfree.
  - vm_compute; reflexivity.
Defined.




End ZoneClassifierFacts.

(** * Further properties of the string operations *)

Module StrAlgebra.
Import Str.

Lemma prefix_app (k a b : string) :
  prefix k a = true -> prefix k (a ++ b) = true.
Proof.
  revert a. induction k as [|c k IH]; intros a H;
    [destruct (a ++ b); reflexivity|].
  destruct a as [|x a]; [discriminate|].
  cbn [prefix append] in *. destruct (ascii_dec c x); [|discriminate].
  apply IH. exact H.
Qed.

Lemma prefix_length (k t : string) :
  prefix k t = true -> (String.length k <= String.length t)%nat.
Proof.
  revert t. induction k as [|c k IH]; intros t H; cbn [String.length]; [lia|].
  destruct t as [|x t]; [discriminate|].
  cbn [prefix] in H. destruct (ascii_dec c x); [|discriminate].
  specialize (IH t H). cbn [String.length]. lia.
Qed.

Lemma prefix_app_inv (k a b : string) :
  prefix k (a ++ b) = true -> (String.length k <= String.length a)%nat ->
  prefix k a = true.
Proof.
  revert a. induction k as [|c k IH]; intros a H L;
    [destruct a; reflexivity|].
  destruct a as [|x a]; [cbn [String.length] in L; lia|].
  cbn [prefix append String.length] in *.
  destruct (ascii_dec c x); [|discriminate].
  apply IH; [exact H | lia].
Qed.

Lemma prefix_self_app (k post : string) : prefix k (k ++ post) = true.
Proof.
  induction k as [|c k IH]; [destruct post; reflexivity|].
  cbn [prefix append]. destruct (ascii_dec c c); [exact IH | congruence].
Qed.

Lemma prefix_split (k t : string) :
  prefix k t = true -> exists post, t = k ++ post.
Proof.
  revert t. induction k as [|c k IH]; intros t H.
  - exists t. reflexivity.
  - destruct t as [|x t]; [discriminate|].
    cbn [prefix] in H. destruct (ascii_dec c x) as [->|]; [|discriminate].
    destruct (IH t H) as [post ->]. exists post. reflexivity.
Qed.

(** [k in t] holds exactly when [t] is [pre + k + post]. *)
Lemma contains_spec (k t : string) :
  contains k t = true <-> exists pre post, t = pre ++ k ++ post.
Proof.
  split.
  - induction t as [|x t IH]; cbn [contains]; intros H.
    + rewrite orb_false_r in H. destruct (prefix_split _ _ H) as [post E].
      exists EmptyString, post. exact E.
    + apply orb_true_iff in H as [H | H].
      * destruct (prefix_split _ _ H) as [post E].
        exists EmptyString, post. exact E.
      * destruct (IH H) as (pre & post & ->).
        exists (String x pre), post. reflexivity.
  - intros (pre & post & ->). induction pre as [|x pre IH].
    + cbn [append]. destruct (k ++ post) eqn:E; cbn [contains];
        rewrite <- E, prefix_self_app; reflexivity.
    + cbn [append contains]. rewrite IH. apply orb_true_r.
Qed.

Lemma app_assoc_string (a b c : string) : (a ++ b) ++ c = a ++ (b ++ c).
Proof.
  induction a as [|x a IH]; [reflexivity|]. cbn [append]. rewrite IH.
  reflexivity.
Qed.

Lemma contains_app_l (k a b : string) :
  contains k a = true -> contains k (a ++ b) = true.
Proof.
  rewrite !contains_spec. intros (pre & post & ->).
  exists pre, (post ++ b). rewrite !app_assoc_string. reflexivity.
Qed.

Lemma contains_app_r (k a b : string) :
  contains k b = true -> contains k (a ++ b) = true.
Proof.
  rewrite !contains_spec. intros (pre & post & ->).
  exists (a ++ pre), post. rewrite !app_assoc_string. reflexivity.
Qed.

(** ** Case mappings *)

Lemma lower_char_not_upper (c : ascii) : is_upper (lower_char c) = false.
Proof. destruct c as [[] [] [] [] [] [] [] []]; vm_compute; reflexivity. Qed.

Lemma upper_lower_char (c : ascii) : upper_char (lower_char c) = upper_char c.
Proof. destruct c as [[] [] [] [] [] [] [] []]; vm_compute; reflexivity. Qed.

Lemma upper_upper_char (c : ascii) : upper_char (upper_char c) = upper_char c.
Proof. destruct c as [[] [] [] [] [] [] [] []]; vm_compute; reflexivity. Qed.

Lemma lower_lower_char (c : ascii) : lower_char (lower_char c) = lower_char c.
Proof. destruct c as [[] [] [] [] [] [] [] []]; vm_compute; reflexivity. Qed.

Lemma upper_char_of_upper (c : ascii) : is_upper c = true -> upper_char c = c.
Proof. destruct c as [[] [] [] [] [] [] [] []]; vm_compute; congruence. Qed.

Lemma lower_app (a b : string) : lower (a ++ b) = lower a ++ lower b.
Proof.
  induction a as [|x a IH]; [reflexivity|]. cbn [append lower]. rewrite IH.
  reflexivity.
Qed.

Lemma lower_idem (s : string) : lower (lower s) = lower s.
Proof.
  induction s as [|x s IH]; [reflexivity|].
  cbn [lower]. rewrite IH, lower_lower_char. reflexivity.
Qed.

Lemma upper_lower (s : string) : upper (lower s) = upper s.
Proof.
  induction s as [|x s IH]; [reflexivity|].
  cbn [lower upper]. rewrite IH, upper_lower_char. reflexivity.
Qed.

Lemma upper_idem (s : string) : upper (upper s) = upper s.
Proof.
  induction s as [|x s IH]; [reflexivity|].
  cbn [upper]. rewrite IH, upper_upper_char. reflexivity.
Qed.

Lemma lower_no_upper (s : string) : no_upper (lower s) = true.
Proof.
  unfold no_upper. induction s as [|x s IH]; [reflexivity|].
  cbn [lower list_ascii_of_string forallb].
  rewrite lower_char_not_upper, IH. reflexivity.
Qed.

Lemma no_upper_app (a b : string) :
  no_upper (a ++ b) = no_upper a && no_upper b.
Proof.
  unfold no_upper. induction a as [|x a IH]; [reflexivity|].
  cbn [append list_ascii_of_string forallb]. rewrite IH, andb_assoc.
  reflexivity.
Qed.

Lemma no_upper_lower (s : string) : no_upper s = true -> lower s = s.
Proof.
  unfold no_upper. induction s as [|x s IH]; [reflexivity|].
  cbn [list_ascii_of_string forallb lower]. intros H.
  apply andb_true_iff in H as [Hx Hs]. rewrite (IH Hs).
  unfold lower_char. apply negb_true_iff in Hx. rewrite Hx. reflexivity.
Qed.

(** A substring stays one when both strings are lower-cased. *)
Lemma contains_lower (k t : string) :
  contains k t = true -> contains (lower k) (lower t) = true.
Proof.
  rewrite !contains_spec. intros (pre & post & ->).
  exists (lower pre), (lower post). rewrite !lower_app. reflexivity.
Qed.

End StrAlgebra.

(** * Counting occurrences in a concatenation *)

Module StrCountFacts.
Import Str.

Lemma count_from_nil (k : string) (s : nat) :
  k <> EmptyString -> count_from k s EmptyString = 0%nat.
Proof. intros Hk. destruct k; [contradiction | reflexivity]. Qed.

(** A text shorter than the pattern holds no occurrence. *)
Lemma count_from_short (k : string) :
  forall t s, (String.length t < String.length k)%nat ->
              count_from k s t = 0%nat.
Proof.
  induction t as [|c t IH]; intros s H.
  - apply count_from_nil. intros ->. cbn [String.length] in H. lia.
  - cbn [String.length] in H. cbn [count_from]. destruct s as [|s].
    + destruct (prefix k (String c t)) eqn:E.
      * apply StrAlgebra.prefix_length in E. cbn [String.length] in E. lia.
      * apply IH. lia.
    + apply IH. lia.
Qed.

(** Starting the scan up to [length k] characters later loses at most one
    occurrence, and never gains one. *)
Lemma count_from_skip (k : string) :
  k <> EmptyString ->
  forall t s d,
    (d <= String.length k)%nat ->
    (count_from k (s + d) t <= count_from k s t <= count_from k (s + d) t + 1)%nat.
Proof.
  intros Hk. induction t as [|c t IH]; intros s d Hd.
  - rewrite !count_from_nil by exact Hk. lia.
  - destruct s as [|s].
    + destruct d as [|d]; [cbn [Nat.add]; lia|].
      cbn [Nat.add count_from].
      destruct (prefix k (String c t)).
      * pose proof (IH d (String.length k - 1 - d)%nat) as H.
        replace (d + (String.length k - 1 - d))%nat
          with (String.length k - 1)%nat in H by lia.
        specialize (H ltac:(lia)). lia.
      * pose proof (IH 0%nat d ltac:(lia)) as H. cbn [Nat.add] in H. lia.
    + cbn [Nat.add count_from]. apply IH. exact Hd.
Qed.

Lemma count_from_app (k b : string) :
  k <> EmptyString ->
  forall a s,
    (s <= String.length k)%nat ->
    (count_from k s a + count_from k 0 b
     <= count_from k s (a ++ b)
        + (if (String.length a <? s)%nat then 1 else 0))%nat.
Proof.
  intros Hk. induction a as [|c a IH]; intros s Hs.
  - rewrite count_from_nil by exact Hk. cbn [append String.length].
    destruct s as [|s]; [cbn; lia|].
    pose proof (count_from_skip k Hk b 0%nat (S s) Hs) as H.
    cbn [Nat.add] in H. cbn [Nat.ltb Nat.leb]. lia.
  - cbn [append String.length]. destruct s as [|s].
    + cbn [Nat.ltb Nat.leb]. cbn [count_from].
      destruct (prefix k (String c a)) eqn:Ea.
      * change (String c (a ++ b)) with (String c a ++ b).
        rewrite (StrAlgebra.prefix_app _ _ b Ea).
        pose proof (StrAlgebra.prefix_length _ _ Ea) as L.
        cbn [String.length] in L.
        pose proof (IH (String.length k - 1)%nat ltac:(lia)) as H.
        destruct (Nat.ltb_spec (String.length a) (String.length k - 1)); lia.
      * destruct (prefix k (String c (a ++ b))) eqn:Eab.
        -- assert (L : (String.length (String c a) < String.length k)%nat).
           { destruct (Nat.lt_ge_cases (String.length (String c a))
                                       (String.length k)) as [L|L]; [exact L|].
             change (String c (a ++ b)) with (String c a ++ b) in Eab.
             rewrite (StrAlgebra.prefix_app_inv _ _ _ Eab L) in Ea.
             discriminate. }
           cbn [String.length] in L.
           rewrite (count_from_short k a 0%nat) by lia.
           pose proof (IH (String.length k - 1)%nat ltac:(lia)) as H.
           destruct (String.length a <? String.length k - 1)%nat; lia.
        -- pose proof (IH 0%nat ltac:(lia)) as H.
           cbn [Nat.ltb Nat.leb] in H. lia.
    + cbn [count_from].
      change (String.length a <? s)%nat
        with (S (String.length a) <? S s)%nat in IH |- *.
      pose proof (IH s ltac:(lia)) as H.
      change (S (String.length a) <? S s)%nat
        with (String.length a <? s)%nat. exact H.
Qed.

(** The occurrences of a non-empty pattern in two texts are still there
    in their concatenation. *)
Lemma count_app (k a b : string) :
  k <> EmptyString -> (count k a + count k b <= count k (a ++ b))%nat.
Proof.
  intros Hk. unfold count.
  pose proof (count_from_app k b Hk a 0%nat ltac:(lia)) as H.
  cbn [Nat.ltb Nat.leb] in H. lia.
Qed.

End StrCountFacts.

(** * Drawing numbers ([extract_drawing_number], [classify_by_drawing_number]) *)

Module DrawingNumberFacts.
Import DrawingClassifier DrawingClassifierApi.
Local Open Scope list_scope.

Lemma match_here_prefix (p : pattern) :
  forall s m, match_here p s = Some m -> exists post, s = (m ++ post)%string.
Proof.
  induction p as [|cls p IH]; intros s m; cbn [match_here].
  - intros H. injection H as <-. exists s. reflexivity.
  - destruct s as [|a s]; [discriminate|].
    destruct (cls a); [|discriminate].
    destruct (match_here p s) as [m'|] eqn:E; [|discriminate].
    cbn [option_map]. intros H. injection H as <-.
    destruct (IH s m' E) as [post ->]. exists post. reflexivity.
Qed.

Lemma match_here_self (p : pattern) :
  forall s m, match_here p s = Some m -> match_here p m = Some m.
Proof.
  induction p as [|cls p IH]; intros s m; cbn [match_here].
  - intros H. injection H as <-. reflexivity.
  - destruct s as [|a s]; [discriminate|].
    destruct (cls a) eqn:Ea; [|discriminate].
    destruct (match_here p s) as [m'|] eqn:E; [|discriminate].
    cbn [option_map]. intros H. injection H as <-.
    rewrite Ea, (IH s m' E). reflexivity.
Qed.

Lemma match_here_fixed (p : pattern) :
  Forall (fun cls : ascii -> bool =>
            forall c, cls c = true -> Str.upper_char c = c) p ->
  forall s m, match_here p s = Some m -> Str.upper m = m.
Proof.
  induction 1 as [|cls p Hcls _ IH]; intros s m; cbn [match_here].
  - intros H. injection H as <-. reflexivity.
  - destruct s as [|a s]; [discriminate|].
    destruct (cls a) eqn:Ea; [|discriminate].
    destruct (match_here p s) as [m'|] eqn:E; [|discriminate].
    cbn [option_map]. intros H. injection H as <-.
    cbn [Str.upper]. rewrite (Hcls a Ea), (IH s m' E). reflexivity.
Qed.

Lemma digit_fixed (c : ascii) : Str.is_digit c = true -> Str.upper_char c = c.
Proof. destruct c as [[] [] [] [] [] [] [] []]; vm_compute; congruence. Qed.

Lemma lit_fixed (x c : ascii) :
  Str.is_lower x = false -> lit x c = true -> Str.upper_char c = c.
Proof.
  unfold lit. intros Hx H. apply Ascii.eqb_eq in H. subst c.
  unfold Str.upper_char. rewrite Hx. reflexivity.
Qed.

Lemma patterns_fixed (p : pattern) :
  In p patterns ->
  Forall (fun cls : ascii -> bool =>
            forall c, cls c = true -> Str.upper_char c = c) p.
Proof.
  unfold patterns. cbn [In].
  intros [<- | [<- | [<- | []]]];
    repeat (apply Forall_cons;
            [first [ exact StrAlgebra.upper_char_of_upper
                   | exact digit_fixed
                   | intros c; apply lit_fixed; reflexivity ]|]);
    apply Forall_nil.
Qed.

(** [re.search] returns the leftmost match. *)
Lemma re_search_leftmost (p : pattern) :
  forall s m,
    re_search p s = Some m ->
    exists n,
      match_here p (drop n s) = Some m /\
      (n <= String.length s)%nat /\
      forall j, (j < n)%nat -> match_here p (drop j s) = None.
Proof.
  induction s as [|c s IH]; intros m; cbn [re_search].
  - destruct (match_here p EmptyString) as [m'|] eqn:E; [|discriminate].
    intros H. injection H as <-. exists 0%nat.
    split; [exact E|]. split; [lia|]. intros j Hj. lia.
  - destruct (match_here p (String c s)) as [m'|] eqn:E.
    + intros H. injection H as <-. exists 0%nat.
      split; [exact E|]. split; [lia|]. intros j Hj. lia.
    + intros H. destruct (IH m H) as (n & Hn & Hlen & Hbefore).
      exists (S n). split; [exact Hn|]. split; [cbn [String.length]; lia|].
      intros [|j] Hj; [exact E|]. cbn [drop]. apply Hbefore. lia.
Qed.

Lemma drop_nil (n : nat) : drop n EmptyString = EmptyString.
Proof. destruct n; reflexivity. Qed.

Lemma re_search_none (p : pattern) (s : string) :
  re_search p s = None <-> forall n, match_here p (drop n s) = None.
Proof.
  split.
  - induction s as [|c s IH]; cbn [re_search].
    + destruct (match_here p EmptyString) eqn:E; [discriminate|].
      intros _ n. rewrite drop_nil. exact E.
    + destruct (match_here p (String c s)) eqn:E; [discriminate|].
      intros H [|n]; [exact E|]. cbn [drop]. apply IH. exact H.
  - induction s as [|c s IH]; intros H; cbn [re_search].
    + pose proof (H 0%nat) as H0. cbn [drop] in H0. rewrite H0. reflexivity.
    + pose proof (H 0%nat) as H0. cbn [drop] in H0. rewrite H0.
      apply IH. intros n. exact (H (S n)).
Qed.

Lemma drop_split (s : string) :
  forall n, (n <= String.length s)%nat ->
            exists pre, s = (pre ++ drop n s)%string /\ String.length pre = n.
Proof.
  induction s as [|c s IH]; intros n Hn.
  - cbn [String.length] in Hn. assert (n = 0)%nat as -> by lia.
    exists EmptyString. split; reflexivity.
  - destruct n as [|n].
    + exists EmptyString. split; reflexivity.
    + cbn [String.length] in Hn. destruct (IH n ltac:(lia)) as (pre & E & L).
      exists (String c pre). cbn [drop append String.length].
      split; [rewrite <- E; reflexivity | lia].
Qed.

(** The result of the loop over the patterns: the leftmost match of the
    first pattern that matches anywhere. *)
Lemma first_match_spec (ps : list pattern) (s m : string) :
  first_match ps s = Some m ->
  exists ps1 p ps2 n,
    ps = ps1 ++ p :: ps2 /\
    (forall q, In q ps1 -> forall j, match_here q (drop j s) = None) /\
    match_here p (drop n s) = Some m /\
    (n <= String.length s)%nat /\
    (forall j, (j < n)%nat -> match_here p (drop j s) = None).
Proof.
  induction ps as [|p ps IH]; cbn [first_match]; [discriminate|].
  destruct (re_search p s) as [m'|] eqn:E.
  - intros H. injection H as <-.
    destruct (re_search_leftmost p s m' E) as (n & Hn & Hlen & Hbefore).
    exists [], p, ps, n. repeat split; try assumption.
    intros q [].
  - intros H. destruct (IH H) as (ps1 & q & ps2 & n & -> & H1 & H2 & H3 & H4).
    exists (p :: ps1), q, ps2, n. repeat split; try assumption.
    intros q' [<- | Hq'].
    + apply re_search_none. exact E.
    + apply H1. exact Hq'.
Qed.

Lemma first_match_none (ps : list pattern) (s : string) :
  first_match ps s = None <->
  forall p, In p ps -> forall n, match_here p (drop n s) = None.
Proof.
  induction ps as [|p ps IH]; cbn [first_match].
  - split; [intros _ p [] | reflexivity].
  - destruct (re_search p s) as [m|] eqn:E.
    + split; [discriminate|]. intros H.
      assert (N : re_search p s = None)
        by (apply re_search_none; apply H; left; reflexivity).
      congruence.
    + rewrite IH. split.
      * intros H q [<- | Hq]; [apply re_search_none; exact E | apply H; exact Hq].
      * intros H q Hq. apply H. right. exact Hq.
Qed.

(** X1. A drawing number that [extract_drawing_number] returns is a
    substring of the upper-cased text, has one of the three shapes, is 4 or
    5 characters long, starts with a letter A-Z and is in upper case. *)
Theorem drawing_number_shape (text d : string) :
  extract_drawing_number text = Some d ->
  Str.contains d (Str.upper text) = true /\
  (exists p, In p patterns /\ match_here p d = Some d) /\
  (String.length d = 4 \/ String.length d = 5)%nat /\
  (exists c rest, d = String c rest /\ Str.is_upper c = true) /\
  Str.upper d = d.
Proof.
  unfold extract_drawing_number. intros H.
  destruct (first_match_spec _ _ _ H)
    as (ps1 & p & ps2 & n & Hps & _ & Hn & Hlen & _).
  assert (Hp : In p patterns)
    by (rewrite Hps; apply in_or_app; right; left; reflexivity).
  pose proof (match_here_self _ _ _ Hn) as Hself.
  split; [|split; [|split; [|split]]].
  - destruct (match_here_prefix _ _ _ Hn) as [post Hpost].
    destruct (drop_split (Str.upper text) n Hlen) as (pre & E & _).
    apply StrAlgebra.contains_spec. exists pre, post.
    rewrite <- Hpost. exact E.
  - exists p. split; assumption.
  - pose proof (DrawingClassifierFacts.match_here_length _ _ _ Hself) as L.
    unfold patterns in Hp. cbn [In] in Hp.
    destruct Hp as [<- | [<- | [<- | []]]]; cbn [List.length] in L; lia.
  - unfold patterns in Hp. cbn [In] in Hp.
    destruct Hp as [<- | [<- | [<- | []]]]; cbn [match_here] in Hself;
      (destruct d as [|c rest]; [discriminate|]);
      (destruct (Str.is_upper c) eqn:Ec; [|discriminate]);
      exists c, rest; split; reflexivity || exact Ec.
  - apply (match_here_fixed p (patterns_fixed p Hp) _ _ Hself).
Qed.

Lemma drawing_number_shape_witness :
  extract_drawing_number "floor plan - sheet a-101" = Some "A-101" /\
  Str.contains "A-101" (Str.upper "floor plan - sheet a-101") = true /\
  Str.upper "A-101" = "A-101".
Proof.
  assert (H : extract_drawing_number "floor plan - sheet a-101" = Some "A-101")
    by (vm_compute; reflexivity).
  split; [exact H|].
  destruct (drawing_number_shape _ _ H) as (H1 & _ & _ & _ & H5).
  split; [exact H1 | exact H5].
Defined.

(** X2. [extract_drawing_number] returns [None] exactly when none of the
    three patterns matches at any position of the upper-cased text. *)
Theorem drawing_number_none_iff (text : string) :
  extract_drawing_number text = None <->
  forall p, In p patterns ->
            forall n, match_here p (drop n (Str.upper text)) = None.
Proof. unfold extract_drawing_number. apply first_match_none. Qed.

(** X3. The patterns are tried in order over the whole text before the
    position counts: the result is the leftmost match of the first pattern
    that matches anywhere, so a dashed number A-101 wins over an undashed
    A101 that stands earlier in the text. *)
Theorem drawing_number_priority (text d : string) :
  extract_drawing_number text = Some d ->
  exists ps1 p ps2 n,
    patterns = ps1 ++ p :: ps2 /\
    (forall q, In q ps1 ->
               forall j, match_here q (drop j (Str.upper text)) = None) /\
    match_here p (drop n (Str.upper text)) = Some d /\
    (forall j, (j < n)%nat -> match_here p (drop j (Str.upper text)) = None).
Proof.
  unfold extract_drawing_number. intros H.
  destruct (first_match_spec _ _ _ H)
    as (ps1 & p & ps2 & n & H1 & H2 & H3 & _ & H5).
  exists ps1, p, ps2, n. repeat split; assumption.
Qed.

Lemma drawing_number_priority_witness :
  let text := "ref b123, sheet a-101 (was a-100)" in
  extract_drawing_number text = Some "A-101" /\
  exists ps1 p ps2 n,
    patterns = ps1 ++ p :: ps2 /\
    (forall q, In q ps1 ->
               forall j, match_here q (drop j (Str.upper text)) = None) /\
    match_here p (drop n (Str.upper text)) = Some "A-101" /\
    (forall j, (j < n)%nat -> match_here p (drop j (Str.upper text)) = None).
Proof.
  intros text.
  assert (H : extract_drawing_number text = Some "A-101")
    by (vm_compute; reflexivity).
  split; [exact H|]. exact (drawing_number_priority text "A-101" H).
Defined.

(** X4. On ASCII text the extraction does not depend on the letter
    case: lower-casing or upper-casing the text first gives the same
    drawing number. *)
Theorem drawing_number_case_insensitive (text : string) :
  Str.is_ascii text = true ->
  extract_drawing_number (Str.lower text) = extract_drawing_number text /\
  extract_drawing_number (Str.upper text) = extract_drawing_number text.
Proof.
  intros _. unfold extract_drawing_number.
  rewrite StrAlgebra.upper_lower, StrAlgebra.upper_idem. split; reflexivity.
Qed.

Lemma drawing_number_case_insensitive_witness :
  Str.is_ascii "Sheet a-101" = true /\
  extract_drawing_number (Str.lower "Sheet a-101") = Some "A-101" /\
  extract_drawing_number (Str.upper "Sheet a-101") = Some "A-101".
Proof.
  assert (H : Str.is_ascii "Sheet a-101" = true) by (vm_compute; reflexivity).
  split; [exact H|].
  destruct (drawing_number_case_insensitive "Sheet a-101" H) as [H1 H2].
  split; [rewrite H1 | rewrite H2]; vm_compute; reflexivity.
Defined.

Lemma drawing_prefixes_table_iff (a : ascii) (ty : DrawingType) :
  drawing_prefixes a = Some ty <-> In (a, ty) prefix_table.
Proof.
  unfold drawing_prefixes, prefix_table. cbn [In]. split.
  - repeat match goal with
           | |- context [Ascii.eqb a ?x] =>
               destruct (Ascii.eqb_spec a x) as [->|?];
               [intros H; injection H as <-; tauto|]
           end.
    discriminate.
  - intros [H | [H | [H | [H | [H | [H | [H | []]]]]]]];
      injection H as <- <-; reflexivity.
Qed.

(** X5. [classify_by_drawing_number] looks at the first character only,
    without regard to its case: it returns a category exactly when the
    number is non-empty and its first letter, upper-cased, is a key of the
    prefix table; the category is then one of the six of the table. *)
Theorem drawing_number_prefix_spec (d : string) (ty : DrawingType) :
  classify_by_drawing_number d = Some ty <->
  exists c rest, d = String c rest /\ In (Str.upper_char c, ty) prefix_table.
Proof.
  split.
  - destruct d as [|c rest]; cbn [classify_by_drawing_number]; [discriminate|].
    intros H. exists c, rest. split; [reflexivity|].
    apply drawing_prefixes_table_iff. exact H.
  - intros (c & rest & -> & H). cbn [classify_by_drawing_number].
    apply drawing_prefixes_table_iff. exact H.
Qed.

End DrawingNumberFacts.

(** * Keywords, evidence and the extracted text *)

Module KeywordFacts.
Import DrawingClassifier DrawingClassifierFacts.
Local Open Scope list_scope.

Lemma forallb_false_exists {A} (f : A -> bool) (l : list A) :
  forallb f l = false -> exists x, In x l /\ f x = false.
Proof.
  induction l as [|a l IH]; cbn [forallb]; [discriminate|].
  destruct (f a) eqn:E.
  - cbn [andb]. intros H. destruct (IH H) as (x & Hin & Hx).
    exists x. split; [right; exact Hin | exact Hx].
  - intros _. exists a. split; [left; reflexivity | exact E].
Qed.

Lemma keyword_free_false (text : string) :
  keyword_free text = false ->
  exists ty kws kw,
    In (ty, kws) keywords /\ In kw kws /\ Str.contains kw text = true.
Proof.
  unfold keyword_free. intros H.
  destruct (forallb_false_exists _ _ H) as ([ty kws] & Hin & Hf).
  destruct (forallb_false_exists _ _ Hf) as (kw & Hkw & Hc).
  apply negb_false_iff in Hc. exists ty, kws, kw. repeat split; assumption.
Qed.

Lemma sum_counts_nonneg (kws : list string) (text : string) :
  (0 <= sum_counts kws text)%Z.
Proof.
  induction kws as [|kw kws IH]; cbn [sum_counts fold_right]; [lia|].
  fold (sum_counts kws text). destruct (Str.contains kw text); lia.
Qed.

Lemma sum_counts_present (kws : list string) (text kw : string) :
  In kw kws -> Str.contains kw text = true -> (1 <= sum_counts kws text)%Z.
Proof.
  induction kws as [|k kws IH]; intros Hin Hc; [destruct Hin|].
  cbn [sum_counts fold_right]. fold (sum_counts kws text).
  pose proof (sum_counts_nonneg kws text) as Hn.
  destruct Hin as [-> | Hin].
  - rewrite Hc. pose proof (StrFacts.contains_true_count kw text Hc). lia.
  - specialize (IH Hin Hc). destruct (Str.contains k text); lia.
Qed.

Lemma sum_counts_absent (kws : list string) (text : string) :
  (forall kw, In kw kws -> Str.contains kw text = false) ->
  sum_counts kws text = 0%Z.
Proof.
  induction kws as [|k kws IH]; intros H; [reflexivity|].
  cbn [sum_counts fold_right]. fold (sum_counts kws text).
  rewrite (H k) by (left; reflexivity).
  rewrite IH by (intros kw Hkw; apply H; right; exact Hkw). reflexivity.
Qed.

Lemma keywords_of_in (ty : DrawingType) (kws : list string) :
  In (ty, kws) keywords -> keywords_of ty = kws.
Proof.
  intros Hin. unfold keywords_of. apply lookup_in; [|exact Hin].
  exact declared_NoDup.
Qed.

Lemma score_of_sum (text : string) (ty : DrawingType) :
  score_of text ty = sum_counts (keywords_of ty) text.
Proof. apply (score_of_sum_in keywords). Qed.

(** A keyword that occurs in the text gives its category a positive raw
    score. *)
Lemma keyword_present_score (text : string) ty kws kw :
  In (ty, kws) keywords -> In kw kws -> Str.contains kw text = true ->
  (0 < score_of text ty)%Z.
Proof.
  intros Hin Hkw Hc. rewrite score_of_sum, (keywords_of_in ty kws Hin).
  pose proof (sum_counts_present kws text kw Hkw Hc). lia.
Qed.

Lemma keyword_free_false_score (text : string) :
  keyword_free text = false -> exists ty, (0 < score_of text ty)%Z.
Proof.
  intros H. destruct (keyword_free_false text H) as (ty & kws & kw & H1 & H2 & H3).
  exists ty. exact (keyword_present_score text ty kws kw H1 H2 H3).
Qed.

Lemma declared_not_unknown (ty : DrawingType) : In ty declared -> ty <> UNKNOWN.
Proof.
  rewrite declared_order. cbn [In]. intuition (subst; discriminate).
Qed.

Lemma matched_nonempty (text : string) (ty : DrawingType) :
  (0 < score_of text ty)%Z -> matched text ty <> [].
Proof.
  intros Hpos Hnil. rewrite matched_filter in Hnil.
  rewrite score_of_sum in Hpos.
  rewrite sum_counts_absent in Hpos; [lia|].
  intros kw Hkw. destruct (Str.contains kw text) eqn:E; [|reflexivity].
  assert (Hin : In kw (filter (fun k => Str.contains k text) (keywords_of ty)))
    by (apply filter_In; split; assumption).
  rewrite Hnil in Hin. destruct Hin.
Qed.

(** X6. The keyword baseline is UNKNOWN exactly when no keyword of the
    table occurs in the text.  As soon as one occurs, the keyword type is a
    declared category, the confidence is at least 0.2 and the evidence is
    not empty. *)
Theorem keyword_unknown_iff (text : string) :
  (fst (fst (classify_by_keywords text)) = UNKNOWN <->
   keyword_free text = true) /\
  (keyword_free text = false ->
   In (fst (fst (classify_by_keywords text))) declared /\
   (0.2 <= snd (fst (classify_by_keywords text)))%Q /\
   snd (classify_by_keywords text) <> []).
Proof.
  assert (Hpos : keyword_free text = false ->
                 In (fst (fst (classify_by_keywords text))) declared /\
                 (0.2 <= snd (fst (classify_by_keywords text)))%Q /\
                 snd (classify_by_keywords text) <> []).
  { intros Hf. pose proof (keyword_free_false_score text Hf) as Hex.
    destruct (best_type_first_max text Hex) as (Hin & Hmax & _ & Hkc).
    destruct Hex as [ty Hty].
    assert (H1 : (1 <= score_of text (fst (fst (classify_by_keywords text))))%Z)
      by (specialize (Hmax ty); lia).
    split; [exact Hin|]. split.
    - rewrite Hkc. apply Q.min_glb; [|discriminate].
      apply Qle_shift_div_l; [reflexivity|].
      apply Qle_trans with (inject_Z 1); [discriminate|].
      rewrite <- Zle_Qle. exact H1.
    - rewrite classify_by_keywords_evidence. apply matched_nonempty. lia. }
  split; [|exact Hpos]. split.
  - intros Hu. destruct (keyword_free text) eqn:Hf; [reflexivity|].
    destruct (Hpos eq_refl) as (Hin & _). apply declared_not_unknown in Hin.
    contradiction.
  - intros Hf. rewrite (classify_by_keywords_free text Hf). reflexivity.
Qed.

Lemma keyword_unknown_iff_witness :
  keyword_free "reflected ceiling grid" = true /\
  keyword_free "roof framing" = false /\
  fst (fst (classify_by_keywords "roof framing")) = ROOF_PLAN /\
  (0.2 <= snd (fst (classify_by_keywords "roof framing")))%Q.
Proof.
  split; [vm_compute; reflexivity|].
  assert (Hf : keyword_free "roof framing" = false) by (vm_compute; reflexivity).
  split; [exact Hf|]. split; [vm_compute; reflexivity|].
  exact (proj1 (proj2 (proj2 (keyword_unknown_iff "roof framing") Hf))).
Defined.

Lemma firstn_in {A} (n : nat) (l : list A) (x : A) :
  In x (firstn n l) -> In x l.
Proof.
  revert l. induction n as [|n IH]; intros l; [intros []|].
  destruct l as [|a l]; [intros []|]. cbn [firstn].
  intros [-> | H]; [left; reflexivity | right; apply IH; exact H].
Qed.

Lemma firstn_NoDup {A} (n : nat) (l : list A) :
  NoDup l -> NoDup (firstn n l).
Proof.
  revert l. induction n as [|n IH]; intros l H; [constructor|].
  destruct l as [|a l]; [constructor|]. cbn [firstn].
  apply NoDup_cons_iff in H as [Ha Hl]. constructor.
  - intros Hin. apply Ha. apply (firstn_in n). exact Hin.
  - apply IH. exact Hl.
Qed.

Lemma keywords_of_NoDup (ty : DrawingType) : NoDup (keywords_of ty).
Proof.
  destruct ty; cbv [keywords_of lookup keywords DrawingType_eqb];
    repeat (constructor; [cbn [In]; intuition discriminate|]); constructor.
Qed.

(** X7. Every keyword reported as evidence occurs in the extracted text
    and is a keyword of the keyword-baseline category; no keyword is
    reported twice. *)
Theorem evidence_sound Image ocr crop (image : Image) (page_num : Z) :
  let text := extract_text_from_image Image ocr crop image in
  let kt := fst (fst (classify_by_keywords text)) in
  let r := classify_page Image ocr crop image page_num in
  (forall kw, In kw (keywords_found r) ->
              Str.contains kw text = true /\ In kw (keywords_of kt)) /\
  NoDup (keywords_found r).
Proof.
  cbv zeta. rewrite classify_page_unfold. cbn [keywords_found].
  rewrite classify_by_keywords_evidence, matched_filter. split.
  - intros kw Hin. apply firstn_in, filter_In in Hin. tauto.
  - apply firstn_NoDup, NoDup_filter, keywords_of_NoDup.
Qed.

End KeywordFacts.

(** * The text built by [extract_text_from_image] *)

Module ExtractedTextFacts.
Import DrawingClassifier DrawingClassifierFacts.
Local Open Scope list_scope.

Lemma keywords_of_nonempty (ty : DrawingType) :
  Forall (fun kw => kw <> EmptyString) (keywords_of ty).
Proof.
  destruct ty; cbv [keywords_of lookup keywords DrawingType_eqb];
    repeat (constructor; [discriminate|]); constructor.
Qed.

Lemma counted_term (kw text : string) :
  kw <> EmptyString ->
  (if Str.contains kw text then Z.of_nat (Str.count kw text) else 0%Z)
  = Z.of_nat (Str.count kw text).
Proof.
  intros Hkw. destruct (Str.contains kw text) eqn:E; [reflexivity|].
  rewrite (StrFacts.contains_false_count kw text Hkw E). reflexivity.
Qed.

Lemma count_page_and_title (kw a sep b : string) :
  kw <> EmptyString ->
  (Str.count kw a + 2 * Str.count kw b
   <= Str.count kw (a ++ sep ++ Str.repeat b 2))%nat.
Proof.
  intros Hkw. cbn [Str.repeat].
  pose proof (StrCountFacts.count_app kw a (sep ++ b ++ b ++ "") Hkw).
  pose proof (StrCountFacts.count_app kw sep (b ++ b ++ "") Hkw).
  pose proof (StrCountFacts.count_app kw b (b ++ "") Hkw).
  pose proof (StrCountFacts.count_app kw b "" Hkw).
  lia.
Qed.

Lemma sum_counts_page_and_title (kws : list string) (a sep b : string) :
  Forall (fun kw => kw <> EmptyString) kws ->
  (sum_counts kws a + 2 * sum_counts kws b
   <= sum_counts kws (a ++ sep ++ Str.repeat b 2))%Z.
Proof.
  induction 1 as [|kw kws Hkw _ IH]; [reflexivity|].
  cbn [sum_counts fold_right]. fold (sum_counts kws a).
  fold (sum_counts kws b). fold (sum_counts kws (a ++ sep ++ Str.repeat b 2)).
  rewrite !counted_term by exact Hkw.
  pose proof (count_page_and_title kw a sep b Hkw). lia.
Qed.

(** X8. The title block counts double: for every category, the raw
    score on the extracted text is at least the raw score on the
    lower-cased page text plus twice the raw score on the lower-cased
    title-block text. *)
Theorem title_block_double_weight Image ocr crop (image : Image)
  (ty : DrawingType) :
  (score_of (Str.lower (ocr image)) ty
   + 2 * score_of (Str.lower (ocr (crop image))) ty
   <= score_of (extract_text_from_image Image ocr crop image) ty)%Z.
Proof.
  rewrite !KeywordFacts.score_of_sum. unfold extract_text_from_image.
  apply sum_counts_page_and_title, keywords_of_nonempty.
Qed.

Lemma no_upper_repeat (s : string) (n : nat) :
  Str.no_upper s = true -> Str.no_upper (Str.repeat s n) = true.
Proof.
  intros H. induction n as [|n IH]; [reflexivity|].
  cbn [Str.repeat]. rewrite StrAlgebra.no_upper_app, H, IH. reflexivity.
Qed.

Lemma extracted_text_no_upper Image ocr crop (image : Image) :
  Str.no_upper (extract_text_from_image Image ocr crop image) = true.
Proof.
  unfold extract_text_from_image.
  rewrite !StrAlgebra.no_upper_app, StrAlgebra.lower_no_upper.
  rewrite no_upper_repeat by apply StrAlgebra.lower_no_upper. reflexivity.
Qed.

(** X9. Let the OCR engine read ASCII text on the page and in its
    title block.  The extracted text holds no upper-case letter; whatever
    the engine reads on the page or in the title block, in any letter case,
    is found lower-cased in the extracted text; and the result of
    [classify_page] is the same when the OCR output is lower-cased
    beforehand. *)
Theorem ocr_case_insensitive Image ocr crop (image : Image) (page_num : Z) :
  let text := extract_text_from_image Image ocr crop image in
  Str.is_ascii (ocr image) = true ->
  Str.is_ascii (ocr (crop image)) = true ->
  Str.no_upper text = true /\
  (forall k, Str.contains k (ocr image) = true ->
             Str.contains (Str.lower k) text = true) /\
  (forall k, Str.contains k (ocr (crop image)) = true ->
             Str.contains (Str.lower k) text = true) /\
  classify_page Image (fun i => Str.lower (ocr i)) crop image page_num =
  classify_page Image ocr crop image page_num.
Proof.
  cbv zeta. intros _ _.
  split; [apply extracted_text_no_upper|]. split; [|split].
  - intros k H. unfold extract_text_from_image.
    apply StrAlgebra.contains_app_l, StrAlgebra.contains_lower. exact H.
  - intros k H. unfold extract_text_from_image. cbn [Str.repeat].
    apply StrAlgebra.contains_app_r, StrAlgebra.contains_app_r.
    apply StrAlgebra.contains_app_l, StrAlgebra.contains_lower. exact H.
  - unfold classify_page, extract_text_from_image.
    rewrite !StrAlgebra.lower_idem. reflexivity.
Qed.

Lemma ocr_case_insensitive_witness :
  let image : Scan := ("GROUND FLOOR PLAN", "Sheet A-101") in
  Str.is_ascii (scan_ocr image) = true /\
  Str.is_ascii (scan_ocr (scan_crop image)) = true /\
  Str.contains "FLOOR PLAN" (scan_ocr image) = true /\
  Str.contains "floor plan" (scan_text image) = true.
Proof.
  intros image.
  assert (H1 : Str.is_ascii (scan_ocr image) = true)
    by (vm_compute; reflexivity).
  assert (H2 : Str.is_ascii (scan_ocr (scan_crop image)) = true)
    by (vm_compute; reflexivity).
  assert (H : Str.contains "FLOOR PLAN" (scan_ocr image) = true)
    by (vm_compute; reflexivity).
  split; [exact H1|]. split; [exact H2|]. split; [exact H|].
  exact (proj1 (proj2 (ocr_case_insensitive Scan scan_ocr scan_crop image 1
                         H1 H2))
           "FLOOR PLAN" H).
Defined.

End ExtractedTextFacts.

(** * The fusion step of [classify_page] *)

Module FusionFacts.
Import DrawingClassifier DrawingClassifierFacts DrawingClassifierApi.
Local Open Scope list_scope.

Lemma prefix_type_in_table (text : string) (p : DrawingType) :
  prefix_type_of text = Some p -> exists a, In (a, p) prefix_table.
Proof.
  unfold prefix_type_of.
  destruct (extract_drawing_number text) as [d|]; [|discriminate].
  destruct (0 <? String.length d)%nat; [|discriminate].
  destruct d as [|c rest]; cbn [classify_by_drawing_number]; [discriminate|].
  intros H. exists (Str.upper_char c).
  apply DrawingNumberFacts.drawing_prefixes_table_iff. exact H.
Qed.

Lemma prefix_type_range (text : string) (p : DrawingType) :
  prefix_type_of text = Some p ->
  In p [FLOOR_PLAN; STRUCTURAL; ELECTRICAL; MECHANICAL; PLUMBING; SITE_PLAN].
Proof.
  intros H. destruct (prefix_type_in_table text p H) as [a Hin].
  unfold prefix_table in Hin. cbn [In] in *.
  repeat (destruct Hin as [Hin | Hin]; [injection Hin as <- <-; tauto|]).
  destruct Hin.
Qed.

Lemma keyword_free_no_cover (text : string) (page_num : Z) :
  keyword_free text = true -> cover_override page_num text = false.
Proof.
  intros H. unfold cover_override.
  assert (Hc : Str.contains "cover" text = false).
  { eapply (proj1 (keyword_free_spec text) H COVER).
    - left; reflexivity.
    - left; reflexivity. }
  rewrite Hc. apply andb_false_r.
Qed.

Lemma keyword_type_unknown (text : string) :
  fst (fst (classify_by_keywords text)) = UNKNOWN -> keyword_free text = true.
Proof.
  intros Hu. destruct (keyword_free text) eqn:Hf; [reflexivity|].
  pose proof (KeywordFacts.keyword_free_false_score text Hf) as Hex.
  destruct (best_type_first_max text Hex) as (Hin & _).
  apply KeywordFacts.declared_not_unknown in Hin. contradiction.
Qed.

(** X10. [classify_page] answers UNKNOWN exactly when no keyword occurs
    in the extracted text and no drawing number with a prefix of the table
    is found in it. *)
Theorem classify_page_unknown_iff Image ocr crop (image : Image)
  (page_num : Z) :
  let text := extract_text_from_image Image ocr crop image in
  classification (classify_page Image ocr crop image page_num) = UNKNOWN <->
  keyword_free text = true /\ prefix_type_of text = None.
Proof.
  cbv zeta. rewrite classify_page_unfold. cbn [classification].
  set (text := extract_text_from_image Image ocr crop image).
  split.
  - destruct (cover_override page_num text); [discriminate|].
    destruct (prefix_type_of text) as [p|] eqn:Ep.
    + pose proof (prefix_type_range text p Ep) as Hr.
      destruct (Qltb _ 0.5) eqn:Elt; cbn [fst].
      * intros ->. cbn [In] in Hr. intuition discriminate.
      * assert (Hkt : fst (if DrawingType_eqb p (fst (fst (classify_by_keywords text)))
                           then (fst (fst (classify_by_keywords text)),
                                 Qmin (snd (fst (classify_by_keywords text)) + 0.2) 1.0)
                           else (fst (fst (classify_by_keywords text)),
                                 snd (fst (classify_by_keywords text))))
                      = fst (fst (classify_by_keywords text)))
          by (destruct (DrawingType_eqb _ _); reflexivity).
        rewrite Hkt. intros Hu. apply keyword_type_unknown in Hu.
        rewrite (classify_by_keywords_free text Hu) in Elt. discriminate.
    + cbn [fst]. intros Hu. split; [apply keyword_type_unknown; exact Hu|].
      reflexivity.
  - intros [Hf Hp]. rewrite (keyword_free_no_cover text page_num Hf), Hp.
    rewrite (classify_by_keywords_free text Hf). reflexivity.
Qed.

(** X11. Off the first page, a page is classified COVER only on keyword
    evidence: COVER then is the keyword type, its raw score is positive and
    no category has a higher one. *)
Theorem cover_beyond_first_page Image ocr crop (image : Image)
  (page_num : Z) :
  let text := extract_text_from_image Image ocr crop image in
  page_num <> 1%Z ->
  classification (classify_page Image ocr crop image page_num) = COVER ->
  fst (fst (classify_by_keywords text)) = COVER /\
  (0 < score_of text COVER)%Z /\
  (forall ty, (score_of text ty <= score_of text COVER)%Z).
Proof.
  cbv zeta. intros Hpage. rewrite classify_page_unfold. cbn [classification].
  set (text := extract_text_from_image Image ocr crop image).
  unfold cover_override. apply Z.eqb_neq in Hpage. rewrite Hpage.
  cbn [andb]. intros Hc.
  assert (Hkt : fst (fst (classify_by_keywords text)) = COVER).
  { destruct (prefix_type_of text) as [p|] eqn:Ep; [|exact Hc].
    pose proof (prefix_type_range text p Ep) as Hr.
    destruct (Qltb _ 0.5); cbn [fst] in Hc.
    - subst p. cbn [In] in Hr. intuition discriminate.
    - destruct (DrawingType_eqb _ _); exact Hc. }
  split; [exact Hkt|].
  destruct (keyword_free text) eqn:Hf.
  - rewrite (classify_by_keywords_free text Hf) in Hkt. discriminate.
  - pose proof (KeywordFacts.keyword_free_false_score text Hf) as Hex.
    destruct (best_type_first_max text Hex) as (_ & Hmax & _).
    rewrite Hkt in Hmax. destruct Hex as [ty Hty]. split; [|exact Hmax].
    specialize (Hmax ty). lia.
Qed.

Lemma cover_beyond_first_page_witness :
  let image : Scan := ("Drawing Index - Sheet Index", "G-001") in
  classification (classify_scan image 2) = COVER /\
  fst (fst (classify_by_keywords (scan_text image))) = COVER /\
  (0 < score_of (scan_text image) COVER)%Z.
Proof.
  intros image.
  assert (Hp : 2%Z <> 1%Z) by discriminate.
  assert (H : classification (classify_page Scan scan_ocr scan_crop image 2)
              = COVER)
    by (vm_compute; reflexivity).
  split; [exact H|].
  pose proof (cover_beyond_first_page Scan scan_ocr scan_crop image 2 Hp H) as G.
  split; [exact (proj1 G) | exact (proj1 (proj2 G))].
Defined.

Lemma keyword_confidence_values (text : string) :
  let kc := snd (fst (classify_by_keywords text)) in
  (kc == 0 \/ kc == 0.2 \/ kc == 0.4 \/ kc == 0.6 \/ kc == 0.8 \/ kc == 1)%Q.
Proof.
  cbv zeta. destruct (any_nonzero (scores text)) eqn:E.
  - apply any_nonzero_iff in E.
    destruct (best_type_first_max text E) as (_ & Hmax & _ & ->).
    destruct E as [ty Hty]. specialize (Hmax ty).
    remember (score_of text (fst (fst (classify_by_keywords text)))) as v
      eqn:Ev.
    clear Ev. destruct (Z_lt_le_dec v 5) as [Hlt|Hge].
    + assert (Hv : (v = 1 \/ v = 2 \/ v = 3 \/ v = 4)%Z) by lia.
      destruct Hv as [-> | [-> | [-> | ->]]].
      * right; left. vm_compute. reflexivity.
      * right; right; left. vm_compute. reflexivity.
      * right; right; right; left. vm_compute. reflexivity.
      * right; right; right; right; left. vm_compute. reflexivity.
    + right; right; right; right; right.
      apply confidence_of_score_saturated. exact Hge.
  - left. unfold classify_by_keywords. rewrite E. reflexivity.
Qed.

Lemma boosted_values (kc : Q) :
  (0.5 <= kc)%Q ->
  (kc == 0 \/ kc == 0.2 \/ kc == 0.4 \/ kc == 0.6 \/ kc == 0.8 \/ kc == 1)%Q ->
  (Qmin (kc + 0.2) 1.0 == 0.8 \/ Qmin (kc + 0.2) 1.0 == 1)%Q.
Proof.
  intros Hge [H | [H | [H | [H | [H | H]]]]]; rewrite H in Hge |- *;
    try (exfalso; vm_compute in Hge; apply Hge; reflexivity).
  - left. vm_compute. reflexivity.
  - right. vm_compute. reflexivity.
  - right. vm_compute. reflexivity.
Qed.

(** X12. The confidence of a result is one of 0, 0.2, 0.4, 0.6, 0.7,
    0.8, 0.9 and 1; it is 0.9 exactly when the cover-page rule applied. *)
Theorem confidence_values Image ocr crop (image : Image) (page_num : Z) :
  let text := extract_text_from_image Image ocr crop image in
  let c := confidence (classify_page Image ocr crop image page_num) in
  (c == 0 \/ c == 0.2 \/ c == 0.4 \/ c == 0.6 \/ c == 0.7 \/ c == 0.8 \/
   c == 0.9 \/ c == 1)%Q /\
  ((c == 0.9)%Q <-> cover_override page_num text = true).
Proof.
  cbv zeta. rewrite classify_page_unfold. cbn [confidence].
  set (text := extract_text_from_image Image ocr crop image).
  pose proof (keyword_confidence_values text) as Hk. cbv zeta in Hk.
  set (kc := snd (fst (classify_by_keywords text))) in *.
  destruct (cover_override page_num text).
  - split; [|split; reflexivity].
    do 6 right. left. reflexivity.
  - assert (Hv : forall c : Q,
               (c == 0 \/ c == 0.2 \/ c == 0.4 \/ c == 0.6 \/ c == 0.7 \/
                c == 0.8 \/ c == 1)%Q ->
               (c == 0 \/ c == 0.2 \/ c == 0.4 \/ c == 0.6 \/ c == 0.7 \/
                c == 0.8 \/ c == 0.9 \/ c == 1)%Q /\
               ((c == 0.9)%Q <-> false = true)).
    { intros c Hc. split; [tauto|]. split; [|discriminate].
      intros H9. exfalso.
      destruct Hc as [H | [H | [H | [H | [H | [H | H]]]]]];
        rewrite H in H9; vm_compute in H9; discriminate. }
    apply Hv.
    destruct (prefix_type_of text) as [p|]; [|cbn [snd]; tauto].
    destruct (Qltb kc 0.5) eqn:Elt; cbn [snd].
    + do 4 right. left. reflexivity.
    + apply Qltb_ge in Elt. destruct (DrawingType_eqb _ _); cbn [snd].
      * destruct (boosted_values kc Elt Hk) as [H | H];
          [do 5 right; left; exact H | do 6 right; exact H].
      * tauto.
Qed.

End FusionFacts.

(** * The label chosen by the zone-weighted classifier *)

Module ZoneLabelFacts.
Import ZoneClassifier ZoneClassifierApi ZoneClassifierFacts.
Local Open Scope list_scope.
Local Open Scope Z_scope.

(** ** The score map stays well formed *)

Lemma add_keys (scores : score_map) (k c : string) (n : Z) :
  In c (map fst (add scores k n)) -> In c (map fst scores) \/ c = k.
Proof.
  induction scores as [|[k' v] rest IH]; cbn [add map fst In].
  - intros [<- | []]. right. reflexivity.
  - destruct (String.eqb_spec k' k) as [->|Hne]; cbn [map fst In].
    + tauto.
    + intros [<- | H]; [tauto|]. destruct (IH H); tauto.
Qed.

Lemma add_well_formed (scores : score_map) (k : string) (n : Z) :
  In k (map fst KEYWORDS) -> 1 <= n ->
  well_formed scores -> well_formed (add scores k n).
Proof.
  intros Hk Hn (Hkeys & Hnd & Hpos). split; [|split].
  - intros c Hc. destruct (add_keys scores k c n Hc) as [H | ->];
      [apply Hkeys; exact H | exact Hk].
  - clear Hkeys Hpos. induction scores as [|[k' v] rest IH]; cbn [add].
    + cbn [map fst]. constructor; [intros [] | constructor].
    + cbn [map fst] in Hnd. apply NoDup_cons_iff in Hnd as [Hk' Hnd].
      destruct (String.eqb_spec k' k) as [->|Hne]; cbn [map fst].
      * apply NoDup_cons; [exact Hk' | exact Hnd].
      * constructor; [|apply IH; exact Hnd].
        intros Hin. destruct (add_keys rest k k' n Hin) as [H | H];
          [contradiction | congruence].
  - clear Hkeys Hnd. induction Hpos as [|[k' v] rest Hv Hrest IH]; cbn [add].
    + constructor; [cbn [snd]; lia | constructor].
    + cbn [snd] in Hv. destruct (String.eqb k' k).
      * constructor; [cbn [snd]; lia | exact Hrest].
      * constructor; [exact Hv | exact IH].
Qed.

Lemma tag_loop_well_formed (w : Z) (text category : string)
  (tags : list string) :
  In category (map fst KEYWORDS) -> 1 <= w ->
  forall scores, well_formed scores ->
                 well_formed (tag_loop w text category tags scores).
Proof.
  intros Hc Hw. unfold tag_loop.
  induction tags as [|tag tags IH]; intros scores H; [exact H|].
  cbn [fold_left]. apply IH. destruct (Str.contains tag text); [|exact H].
  apply add_well_formed; assumption.
Qed.

Lemma table_loop_well_formed (w : Z) (text : string) (scores : score_map) :
  1 <= w -> well_formed scores -> well_formed (table_loop w text scores).
Proof.
  intros Hw. unfold table_loop.
  assert (G : forall tbl,
             (forall c tags, In (c, tags) tbl -> In c (map fst KEYWORDS)) ->
             forall sc, well_formed sc ->
                        well_formed
                          (fold_left
                             (fun sc '(category, tags) =>
                                tag_loop w text category tags sc) tbl sc)).
  { induction tbl as [|[c tags] tbl IH]; intros Hin sc H; [exact H|].
    cbn [fold_left]. apply IH.
    - intros c' tags' H'. apply (Hin c' tags'). right. exact H'.
    - apply tag_loop_well_formed; [|exact Hw | exact H].
      apply (Hin c tags). left. reflexivity. }
  apply G. intros c tags Hin. apply in_map_iff. exists (c, tags).
  split; [reflexivity | exact Hin].
Qed.

Lemma zone_pass_well_formed (zones : list string) :
  forall scores, well_formed scores -> well_formed (zone_pass zones scores).
Proof.
  unfold zone_pass. induction zones as [|zone zones IH]; intros scores H;
    [exact H|].
  cbn [fold_left]. apply IH. apply table_loop_well_formed; [lia | exact H].
Qed.

Lemma score_page_well_formed (zones : list string) (full_text : string) :
  well_formed (score_page zones full_text).
Proof.
  unfold score_page, density_bonus.
  assert (H : well_formed (table_loop 1 full_text (zone_pass zones []))).
  { apply table_loop_well_formed; [lia|]. apply zone_pass_well_formed.
    split; [intros c []|]. split; constructor. }
  destruct (2000 <? Z.of_nat (String.length full_text)); [|exact H].
  apply add_well_formed; [|lia | exact H].
  cbn [KEYWORDS map fst In]. tauto.
Qed.

(** ** The first maximal key *)

Lemma zone_max_from_split (d : score_map) :
  forall best best_score k,
    max_from best best_score d = k ->
    (k = best /\ Forall (fun kv => snd kv <= best_score) d) \/
    (exists d1 v d2,
        d = d1 ++ (k, v) :: d2 /\ best_score < v /\
        Forall (fun kv => snd kv < v) d1 /\
        Forall (fun kv => snd kv <= v) d2).
Proof.
  induction d as [|[k1 v1] d IH]; intros best bs k H; cbn [max_from] in H.
  - left. split; [congruence | constructor].
  - destruct (Z.ltb_spec bs v1) as [Hlt|Hge].
    + right.
      destruct (IH _ _ _ H) as [[-> Hall] | (d1 & v & d2 & -> & Hv & H1 & H2)].
      * exists [], v1, d. repeat split; [exact Hlt | constructor | exact Hall].
      * exists ((k1, v1) :: d1), v, d2. repeat split.
        -- lia.
        -- constructor; [exact Hv | exact H1].
        -- exact H2.
    + destruct (IH _ _ _ H) as [[-> Hall] | (d1 & v & d2 & -> & Hv & H1 & H2)].
      * left. split; [reflexivity|]. constructor; [exact Hge | exact Hall].
      * right. exists ((k1, v1) :: d1), v, d2. repeat split.
        -- exact Hv.
        -- constructor; [cbn [snd]; lia | exact H1].
        -- exact H2.
Qed.

Lemma pick_split (scores : score_map) :
  scores <> [] ->
  exists d1 v d2,
    scores = d1 ++ (pick scores, v) :: d2 /\
    Forall (fun kv => snd kv < v) d1 /\
    Forall (fun kv => snd kv <= v) d2.
Proof.
  destruct scores as [|[k0 v0] d]; [congruence|]. intros _. cbn [pick].
  destruct (zone_max_from_split d k0 v0 _ eq_refl)
    as [[E Hall] | (d1 & v & d2 & E & Hv & H1 & H2)].
  - rewrite E. exists [], v0, d. repeat split; [constructor | exact Hall].
  - exists ((k0, v0) :: d1), v, d2. repeat split.
    + rewrite E at 1. reflexivity.
    + constructor; [exact Hv | exact H1].
    + exact H2.
Qed.

Lemma get_in (scores : score_map) (k : string) (v : Z) :
  NoDup (map fst scores) -> In (k, v) scores -> get scores k = v.
Proof.
  induction scores as [|[k1 v1] d IH]; intros Hnd Hin; [destruct Hin|].
  cbn [map fst] in Hnd. apply NoDup_cons_iff in Hnd as [Hk1 Hnd].
  cbn [get]. destruct Hin as [Heq | Hin].
  - injection Heq as -> ->. rewrite String.eqb_refl. reflexivity.
  - destruct (String.eqb_spec k1 k) as [->|_].
    + exfalso. apply Hk1. apply in_map_iff. exists (k, v).
      split; [reflexivity | exact Hin].
    + apply IH; assumption.
Qed.

Lemma get_le (scores : score_map) (c : string) (v : Z) :
  0 <= v -> Forall (fun kv => snd kv <= v) scores -> get scores c <= v.
Proof.
  intros Hv. induction 1 as [|[k1 v1] d H1 _ IH]; cbn [get]; [exact Hv|].
  destruct (String.eqb k1 c); [exact H1 | exact IH].
Qed.

(** On a non-empty well-formed score map, [pick] returns a key of the
    map whose score is positive and maximal. *)
Lemma pick_max (scores : score_map) :
  well_formed scores -> scores <> [] ->
  In (pick scores) (map fst scores) /\
  1 <= get scores (pick scores) /\
  forall c, get scores c <= get scores (pick scores).
Proof.
  intros (_ & Hnd & Hpos) Hne.
  destruct (pick_split scores Hne) as (d1 & v & d2 & E & H1 & H2).
  assert (Hin : In (pick scores, v) scores)
    by (rewrite E at 2; apply in_or_app; right; left; reflexivity).
  assert (Hv : get scores (pick scores) = v) by (apply get_in; assumption).
  assert (Hv1 : 1 <= v).
  { rewrite Forall_forall in Hpos. exact (Hpos _ Hin). }
  split; [|split].
  - apply in_map_iff. exists (pick scores, v). split; [reflexivity | exact Hin].
  - lia.
  - intros c. rewrite Hv. apply get_le; [lia|].
    rewrite E. apply Forall_app. split.
    + eapply Forall_impl; [|exact H1]. cbv beta. intros; lia.
    + constructor; [cbn [snd]; lia | exact H2].
Qed.

(** ** When nothing is scored *)

Lemma hits_nonneg (text : string) (tags : list string) : 0 <= hits text tags.
Proof. unfold hits. lia. Qed.

Lemma table_hits_nonneg tbl (text c : string) : 0 <= table_hits tbl text c.
Proof.
  induction tbl as [|[k tags] tbl IH]; cbn [table_hits fold_right]; [lia|].
  fold (table_hits tbl text c). pose proof (hits_nonneg text tags).
  destruct (String.eqb k c); lia.
Qed.

Lemma zone_hits_nonneg tbl (zones : list string) (c : string) :
  0 <= zone_hits tbl zones c.
Proof.
  induction zones as [|z zones IH]; cbn [zone_hits fold_right]; [lia|].
  fold (zone_hits tbl zones c). pose proof (table_hits_nonneg tbl z c). lia.
Qed.

Lemma bonus_nonneg (full_text c : string) : 0 <= bonus full_text c.
Proof.
  unfold bonus. destruct (2000 <? _); [|lia].
  destruct (String.eqb _ _); lia.
Qed.

Lemma hits_present (text tag : string) (tags : list string) :
  In tag tags -> Str.contains tag text = true -> 1 <= hits text tags.
Proof.
  induction tags as [|t tags IH]; intros Hin Hc; [destruct Hin|].
  rewrite hits_cons. pose proof (hits_nonneg text tags).
  destruct Hin as [-> | Hin].
  - rewrite Hc. lia.
  - specialize (IH Hin Hc). destruct (Str.contains t text); lia.
Qed.

Lemma table_hits_zero_free (text : string) :
  (forall c, table_hits KEYWORDS text c = 0) -> keyword_free text = true.
Proof.
  intros H. destruct (keyword_free text) eqn:Hf; [reflexivity|].
  unfold keyword_free in Hf.
  destruct (KeywordFacts.forallb_false_exists _ _ Hf) as ([c tags] & Hin & Hg).
  destruct (KeywordFacts.forallb_false_exists _ _ Hg) as (tag & Htag & Hc).
  apply negb_false_iff in Hc.
  pose proof (hits_present text tag tags Htag Hc) as H1.
  rewrite <- (table_hits_in KEYWORDS text c tags KEYWORDS_keys_NoDup Hin) in H1.
  rewrite (H c) in H1. lia.
Qed.

Lemma zone_hits_zero_free (zones : list string) :
  (forall c, zone_hits KEYWORDS zones c = 0) ->
  forallb keyword_free zones = true.
Proof.
  induction zones as [|z zones IH]; intros H; [reflexivity|].
  cbn [forallb]. apply andb_true_iff. split.
  - apply table_hits_zero_free. intros c. specialize (H c).
    cbn [zone_hits fold_right] in H. fold (zone_hits KEYWORDS zones c) in H.
    pose proof (table_hits_nonneg KEYWORDS z c).
    pose proof (zone_hits_nonneg KEYWORDS zones c). lia.
  - apply IH. intros c. specialize (H c).
    cbn [zone_hits fold_right] in H. fold (zone_hits KEYWORDS zones c) in H.
    pose proof (table_hits_nonneg KEYWORDS z c).
    pose proof (zone_hits_nonneg KEYWORDS zones c). lia.
Qed.

(** The score map is empty exactly when no keyword occurs in any zone or
    in the full-page text and the page is not dense. *)
Lemma score_page_empty_iff (zones : list string) (full_text : string) :
  score_page zones full_text = [] <->
  forallb keyword_free zones = true /\ keyword_free full_text = true /\
  Z.of_nat (String.length full_text) <= 2000.
Proof.
  split.
  - intros E.
    assert (H : forall c,
               3 * zone_hits KEYWORDS zones c
               + table_hits KEYWORDS full_text c + bonus full_text c = 0).
    { intros c. rewrite <- get_score_page, E. reflexivity. }
    assert (H' : forall c,
               zone_hits KEYWORDS zones c = 0 /\
               table_hits KEYWORDS full_text c = 0 /\ bonus full_text c = 0).
    { intros c. specialize (H c).
      pose proof (zone_hits_nonneg KEYWORDS zones c).
      pose proof (table_hits_nonneg KEYWORDS full_text c).
      pose proof (bonus_nonneg full_text c). lia. }
    split; [|split].
    + apply zone_hits_zero_free. intros c. apply H'.
    + apply table_hits_zero_free. intros c. apply H'.
    + destruct (H' "GENERAL_NOTES"%string) as (_ & _ & Hb).
      unfold bonus in Hb.
      destruct (Z.ltb_spec 2000 (Z.of_nat (String.length full_text)));
        [cbn in Hb; lia | lia].
  - intros (Hz & Hf & Hlen). unfold score_page.
    rewrite (zone_pass_free zones [] Hz), (table_loop_free 1 full_text [] Hf).
    unfold density_bonus. apply Z.ltb_ge in Hlen. rewrite Hlen. reflexivity.
Qed.

Lemma unknown_not_category : ~ In "UNKNOWN"%string (map fst KEYWORDS).
Proof. cbn [KEYWORDS map fst In]. intuition discriminate. Qed.

Lemma pick_unknown_iff (scores : score_map) :
  well_formed scores -> (pick scores = "UNKNOWN"%string <-> scores = []).
Proof.
  intros Hwf. split.
  - intros E. destruct scores as [|kv d] eqn:Es; [reflexivity|].
    assert (Hne : scores <> []) by (rewrite Es; discriminate).
    rewrite <- Es in Hwf, E.
    destruct (pick_max scores Hwf Hne) as (Hin & _).
    destruct Hwf as (Hkeys & _). apply Hkeys in Hin. rewrite E in Hin.
    destruct (unknown_not_category Hin).
  - intros ->. reflexivity.
Qed.

(** X13. The label returned by the zone-weighted [classify_page] is one
    of the five categories of [KEYWORDS] or "UNKNOWN". *)
Theorem zone_label_closed Page width height within words (page : Page) :
  In (classify_page Page width height within words page) labels.
Proof.
  rewrite classify_page_pick. unfold scores_of_page, labels.
  set (sc := score_page _ _).
  pose proof (score_page_well_formed
                (map snd (extract_zones Page width height within page))
                (extract_words_text Page words page)) as Hwf.
  fold sc in Hwf. apply in_or_app.
  destruct sc as [|kv d] eqn:Es; [right; left; reflexivity|].
  left. assert (Hne : sc <> []) by (rewrite Es; discriminate).
  rewrite <- Es in *. destruct Hwf as (Hkeys & Hnd & Hpos).
  apply Hkeys. apply (pick_max sc); [repeat split; assumption | exact Hne].
Qed.

(** X14. The zone-weighted [classify_page] answers "UNKNOWN" exactly
    when no keyword occurs in any of the four zone texts nor in the
    full-page text, and the full-page text has at most 2000 characters. *)
Theorem zone_unknown_iff Page width height within words (page : Page) :
  let zones := map snd (extract_zones Page width height within page) in
  let full_text := extract_words_text Page words page in
  classify_page Page width height within words page = "UNKNOWN"%string <->
  forallb keyword_free zones = true /\ keyword_free full_text = true /\
  Z.of_nat (String.length full_text) <= 2000.
Proof.
  cbv zeta. rewrite classify_page_pick. unfold scores_of_page.
  rewrite pick_unknown_iff by apply score_page_well_formed.
  apply score_page_empty_iff.
Qed.

(** X15. The label returned has the greatest score: no category scores
    more than it, and unless it is "UNKNOWN" its score is at least 1. *)
Theorem zone_label_max Page width height within words (page : Page) :
  let scores := scores_of_page Page width height within words page in
  let label := classify_page Page width height within words page in
  (forall c, get scores c <= get scores label) /\
  (label <> "UNKNOWN"%string -> 1 <= get scores label).
Proof.
  cbv zeta. rewrite classify_page_pick. unfold scores_of_page.
  set (sc := score_page _ _).
  pose proof (score_page_well_formed
                (map snd (extract_zones Page width height within page))
                (extract_words_text Page words page)) as Hwf.
  fold sc in Hwf.
  destruct sc as [|kv d] eqn:Es.
  - split; [intros c; reflexivity|]. intros H. exfalso. apply H. reflexivity.
  - assert (Hne : sc <> []) by (rewrite Es; discriminate).
    rewrite <- Es in *. destruct (pick_max sc Hwf Hne) as (_ & H1 & Hmax).
    split; [exact Hmax | intros _; exact H1].
Qed.

End ZoneLabelFacts.

(** * The HTTP endpoints *)

Module ApiFacts.
Import DrawingClassifier DrawingClassifierFacts DrawingClassifierApi.
Local Open Scope list_scope.

(** When both OCR passes succeed, the checked extraction yields the text
    of [extract_text_from_image]. *)
Lemma extract_text_checked_some Image ocr crop (image : Image) (text : string) :
  extract_text_checked Image ocr crop image = Some text ->
  text = extract_text_from_image Image (ocr_text Image ocr) crop image.
Proof.
  unfold extract_text_checked, extract_text_from_image, ocr_text.
  destruct (ocr image) as [full|]; [|discriminate].
  destruct (ocr (crop image)) as [title|]; [|discriminate].
  intros H. injection H as <-. reflexivity.
Qed.

Lemma classify_page_checked_ok Image ocr crop (image : Image) (i : Z) r :
  classify_page_checked Image ocr crop image i = Ok r ->
  extract_text_checked Image ocr crop image <> None /\
  r = classify_page Image (ocr_text Image ocr) crop image i.
Proof.
  unfold classify_page_checked.
  destruct (extract_text_checked Image ocr crop image); [|discriminate].
  intros H. injection H as <-. split; [discriminate | reflexivity].
Qed.

Lemma classify_page_checked_error Image ocr crop (image : Image) (i : Z) s :
  classify_page_checked Image ocr crop image i = HTTPError s ->
  extract_text_checked Image ocr crop image = None.
Proof.
  unfold classify_page_checked.
  destruct (extract_text_checked Image ocr crop image); [discriminate|].
  reflexivity.
Qed.

Lemma classify_page_number Image ocr crop (image : Image) (i : Z) :
  page_number (classify_page Image ocr crop image i) = i.
Proof. rewrite classify_page_unfold. reflexivity. Qed.

(** X16. [classify_image] answers 400 exactly when the content type does
    not start with "image/", and otherwise 500 or a result.  A result is
    that of [classify_page] on the opened image as page 1; so an image
    whose extracted text contains "cover" is always COVER at 0.9. *)
Theorem classify_image_spec Image Bytes ocr crop image_open
  (file : UploadFile Bytes) :
  let answer := classify_image Image Bytes ocr crop image_open file in
  (answer = HTTPError 400 <->
   Str.startswith (content_type file) "image/" = false) /\
  (forall status, answer = HTTPError status -> status = 400%Z \/ status = 500%Z) /\
  (forall r,
      answer = Ok r ->
      exists image,
        image_open (contents file) = Some image /\
        r = classify_page Image (ocr_text Image ocr) crop image 1 /\
        page_number r = 1%Z /\
        (Str.contains "cover"
           (extract_text_from_image Image (ocr_text Image ocr) crop image) = true ->
         classification r = COVER /\ confidence r = 0.9%Q)).
Proof.
  cbv zeta. unfold classify_image.
  destruct (Str.startswith (content_type file) "image/"); cbn [negb].
  - destruct (image_open (contents file)) as [image|].
    + destruct (classify_page_checked Image ocr crop image 1) as [r0|s] eqn:E.
      * split; [split; discriminate|]. split; [discriminate|].
        intros r H. injection H as <-. exists image.
        destruct (classify_page_checked_ok _ _ _ _ _ _ E) as [_ ->].
        split; [reflexivity|]. split; [reflexivity|].
        split; [apply classify_page_number|].
        intros Hc. rewrite classify_page_unfold. unfold cover_override.
        rewrite Hc. split; reflexivity.
      * split; [split; discriminate|]. split; [|discriminate].
        intros status H. injection H as <-. right. reflexivity.
    + split; [split; discriminate|]. split; [|discriminate].
      intros status H. injection H as <-. right. reflexivity.
  - split; [split; reflexivity|]. split; [|discriminate].
    intros status H. injection H as <-. left. reflexivity.
Qed.

(** The loop over the pages succeeds exactly when the OCR succeeds on
    every page. *)
Lemma classify_pages_ok Image ocr crop (images : list Image) :
  forall i results,
    classify_pages Image ocr crop images i = Ok results ->
    List.length results = List.length images /\
    map page_number results =
      map (fun k => (i + Z.of_nat k)%Z) (seq 0 (List.length images)) /\
    Forall2 (fun image r =>
               r = classify_page Image (ocr_text Image ocr) crop image
                                 (page_number r))
            images results.
Proof.
  induction images as [|image images IH]; intros i results; cbn [classify_pages].
  - intros H. injection H as <-. repeat split. constructor.
  - destruct (classify_page_checked Image ocr crop image i) as [r|s] eqn:E;
      [|discriminate].
    destruct (classify_pages Image ocr crop images (i + 1)) as [rs|s] eqn:Es;
      [|discriminate].
    intros H. injection H as <-.
    destruct (classify_page_checked_ok _ _ _ _ _ _ E) as [_ Er].
    destruct (IH _ _ Es) as (Hlen & Hnum & Hall).
    assert (Hr : page_number r = i) by (rewrite Er; apply classify_page_number).
    split; [cbn [List.length]; lia|]. split.
    + cbn [List.length seq map]. rewrite Hr, Z.add_0_r, Hnum. f_equal.
      rewrite <- seq_shift, map_map. apply map_ext. intros k. lia.
    + constructor; [rewrite Hr; exact Er | exact Hall].
Qed.

Lemma classify_pages_total Image ocr crop (images : list Image) :
  forall i,
    (Forall (fun image => extract_text_checked Image ocr crop image <> None)
            images ->
     exists results, classify_pages Image ocr crop images i = Ok results) /\
    (Exists (fun image => extract_text_checked Image ocr crop image = None)
            images ->
     classify_pages Image ocr crop images i = HTTPError 500).
Proof.
  induction images as [|image images IH]; intros i; cbn [classify_pages].
  - split; [intros _; eexists; reflexivity|]. intros H. inversion H.
  - destruct (classify_page_checked Image ocr crop image i) as [r|s] eqn:E.
    + apply classify_page_checked_ok in E as [E _]. split.
      * intros H. apply Forall_cons_iff in H as [_ H].
        destruct (proj1 (IH (i + 1)%Z) H) as [rs ->]. eexists; reflexivity.
      * intros H. apply Exists_cons in H as [H | H]; [congruence|].
        rewrite (proj2 (IH (i + 1)%Z) H). reflexivity.
    + apply classify_page_checked_error in E. split; [|reflexivity].
      intros H. apply Forall_cons_iff in H as [H _]. congruence.
Qed.

(** X17. [classify_pdf] answers 400 exactly when the content type is not
    "application/pdf".  When it answers with results, there is one per
    page of the document, numbered 1, 2, ... in page order, each being
    [classify_page] of that page under its number; and it answers 500
    without any result as soon as the OCR fails on one page. *)
Theorem classify_pdf_spec Image Bytes ocr crop convert
  (file : UploadFile Bytes) :
  let answer := classify_pdf Image Bytes ocr crop convert file in
  (answer = HTTPError 400 <->
   String.eqb (content_type file) "application/pdf" = false) /\
  (forall results,
      answer = Ok results ->
      exists images,
        convert (contents file) = Some images /\
        List.length results = List.length images /\
        map page_number results =
          map (fun k => Z.of_nat k) (seq 1 (List.length images)) /\
        Forall2 (fun image r =>
                   r = classify_page Image (ocr_text Image ocr) crop image
                                     (page_number r))
                images results) /\
  (forall images,
      String.eqb (content_type file) "application/pdf" = true ->
      convert (contents file) = Some images ->
      Exists (fun image => extract_text_checked Image ocr crop image = None)
             images ->
      answer = HTTPError 500).
Proof.
  cbv zeta. unfold classify_pdf.
  destruct (String.eqb (content_type file) "application/pdf"); cbn [negb].
  - split; [|split].
    + split; [|discriminate].
      destruct (convert (contents file)) as [images|]; [|discriminate].
      intros H. exfalso.
      destruct (classify_pages Image ocr crop images 1) as [rs|s] eqn:E;
        [discriminate|].
      assert (Hs : s = 500%Z).
      { clear H. revert E. generalize 1%Z. induction images as [|im ims IH];
          intros i; cbn [classify_pages]; [discriminate|].
        destruct (classify_page_checked Image ocr crop im i);
          [|intros H; injection H as <-; reflexivity].
        destruct (classify_pages Image ocr crop ims (i + 1)) eqn:Es;
          [discriminate|].
        intros H. injection H as <-. exact (IH _ Es). }
      subst s. discriminate.
    + intros results H.
      destruct (convert (contents file)) as [images|]; [|discriminate].
      exists images. split; [reflexivity|].
      destruct (classify_pages_ok _ _ _ _ _ _ H) as (Hlen & Hnum & Hall).
      split; [exact Hlen|]. split; [|exact Hall].
      rewrite Hnum, <- seq_shift, map_map. apply map_ext. intros k. lia.
    + intros images _ Hc Hex. rewrite Hc.
      apply (classify_pages_total Image ocr crop images 1). exact Hex.
  - split; [split; reflexivity|]. split; [discriminate|].
    intros images H. discriminate.
Qed.

End ApiFacts.

(** * The endpoint of the zone-weighted classifier *)

Module ZoneApiFacts.
Import ZoneClassifier ZoneClassifierApi.
Local Open Scope list_scope.

(** [s.endswith(p)] holds exactly when [s] is [stem + p]. *)
Lemma endswith_spec (s p : string) :
  Str.endswith s p = true <-> exists stem, s = (stem ++ p)%string.
Proof.
  split.
  - induction s as [|c s IH]; cbn [Str.endswith].
    + rewrite orb_false_r. intros H. apply String.eqb_eq in H. subst p.
      exists EmptyString. reflexivity.
    + intros H. apply orb_true_iff in H as [H | H].
      * apply String.eqb_eq in H. subst p. exists EmptyString. reflexivity.
      * destruct (IH H) as [stem ->]. exists (String c stem). reflexivity.
  - intros [stem ->]. induction stem as [|c stem IH].
    + cbn [append]. destruct p; cbn [Str.endswith];
        rewrite String.eqb_refl; reflexivity.
    + cbn [append Str.endswith]. rewrite IH. apply orb_true_r.
Qed.

Lemma classify_from_spec Page width height within words (pages : list Page) :
  forall i,
    List.length (classify_from Page width height within words i pages)
      = List.length pages /\
    map page_number (classify_from Page width height within words i pages)
      = map (fun k => (i + 1 + Z.of_nat k)%Z) (seq 0 (List.length pages)) /\
    map classification (classify_from Page width height within words i pages)
      = map (classify_page Page width height within words) pages.
Proof.
  induction pages as [|page pages IH]; intros i; [repeat split|].
  destruct (IH (i + 1)%Z) as (Hlen & Hnum & Hlab).
  cbn [classify_from List.length map seq page_number classification].
  split; [rewrite Hlen; reflexivity|]. split.
  - rewrite Hnum, Z.add_0_r. f_equal.
    rewrite <- seq_shift, map_map. apply map_ext. intros k. lia.
  - rewrite Hlab. reflexivity.
Qed.

(** X18. [POST /classify] answers 400 exactly when the file name does
    not end in ".pdf".  A successful answer echoes the file name, has one
    entry per page of the document, numbered 1, 2, ... in page order and
    labelled by [classify_page], and its [total_pages] is the number of
    entries. *)
Theorem zone_classify_pdf_spec Page Bytes width height within words
  pdf_open (file_name : string) (pdf_bytes : Bytes) :
  let answer :=
    classify_pdf Page Bytes width height within words pdf_open
                 file_name pdf_bytes in
  (answer = HTTPError 400 <->
   ~ exists stem, file_name = (stem ++ ".pdf")%string) /\
  (forall resp,
      answer = Ok resp ->
      exists pages,
        pdf_open pdf_bytes = Some pages /\
        filename resp = file_name /\
        total_pages resp = Z.of_nat (List.length (results resp)) /\
        List.length (results resp) = List.length pages /\
        map page_number (results resp)
          = map Z.of_nat (seq 1 (List.length pages)) /\
        map classification (results resp)
          = map (classify_page Page width height within words) pages).
Proof.
  cbv zeta. unfold classify_pdf.
  destruct (Str.endswith file_name ".pdf") eqn:E; cbn [negb].
  - apply endswith_spec in E. split.
    + split; [|intros H; contradiction].
      destruct (pdf_open pdf_bytes); discriminate.
    + intros resp H.
      destruct (pdf_open pdf_bytes) as [pages|]; [|discriminate].
      injection H as <-. exists pages.
      destruct (classify_from_spec Page width height within words pages 0)
        as (Hlen & Hnum & Hlab).
      cbn [filename total_pages results].
      split; [reflexivity|]. split; [reflexivity|].
      split; [rewrite Hlen; reflexivity|]. split; [exact Hlen|].
      split; [|exact Hlab].
      rewrite Hnum, <- seq_shift, map_map. apply map_ext. intros k. lia.
  - split; [|discriminate]. split; [|reflexivity].
    intros _ Hex. apply endswith_spec in Hex. congruence.
Qed.

End ZoneApiFacts.
